(** * hyt-read: a shallow embedding of [hyt-read.c]

    The program polls a HYT humidity/temperature sensor over Linux
    [i2c-dev].  This development embeds

    - the arithmetic of [take_reading] (lines 156-157): integer bit
      operations on [unsigned char] promoted to [int], IEEE-754 binary64
      arithmetic for the [double] sub-expressions and the final narrowing
      to binary32 for the [float] fields of [struct reading];
    - the system-call level behaviour of [name_file_matches],
      [open_i2c_dev], [open_i2c_bus], [take_reading],
      [parse_i2c_slave_address] and [main] as an exit/trace monad over an
      explicit description of what the operating system answers.

    Floating point follows [SpecFloat] of the standard library (the
    executable specification the primitive floats are checked against),
    evaluated as a C compiler with [FLT_EVAL_METHOD = 0] does.  The libc
    functions the program calls ([strtol], [atoi], [memcmp]) are modelled
    after ISO C; [getopt] is not modelled, its results are an input.

    Part I holds the definitions, Part II the lemmas and theorems. *)

From Stdlib Require Import ZArith List String Ascii Bool Lia.
From Stdlib Require Import Strings.Byte Numbers.DecimalString.
From Stdlib Require Import Floats.SpecFloat.
Import ListNotations.

Local Open Scope Z_scope.

(* ################################################################## *)
(** * Part I: definitions *)
(* ################################################################## *)

(* ================================================================== *)
(** ** C floating-point types *)
(* ================================================================== *)

Module CFloat.

(** [double] is binary64, [float] is binary32. *)
Definition dprec : Z := 53.
Definition demax : Z := 1024.
Definition fprec : Z := 24.
Definition femax : Z := 128.

(** Conversion [int -> double] (exact for every 32-bit [int]). *)
Definition double_of_int (n : Z) : spec_float :=
  binary_normalize dprec demax n 0 false.

(** The value of an integral [float] constant, used to state bounds. *)
Definition float_of_int (n : Z) : spec_float :=
  binary_normalize fprec femax n 0 false.

Definition dmul : spec_float -> spec_float -> spec_float := SFmul dprec demax.
Definition ddiv : spec_float -> spec_float -> spec_float := SFdiv dprec demax.
Definition dsub : spec_float -> spec_float -> spec_float := SFsub dprec demax.

(** Conversion [double -> float], as done by the assignment to a [float]
    lvalue: round to nearest, ties to even. *)
Definition float_of_double (x : spec_float) : spec_float :=
  match x with
  | S754_finite s m e => binary_round fprec femax s m e
  | _ => x
  end.

End CFloat.
Import CFloat.

(* ================================================================== *)
(** ** The frame decoder (take_reading, lines 156-157) *)
(* ================================================================== *)

(** [unsigned char data[4]] *)
Record frame : Type := Frame {
  data0 : byte;
  data1 : byte;
  data2 : byte;
  data3 : byte
}.

(** Integer promotion of an [unsigned char]. *)
Definition uchar (b : byte) : Z := Z.of_N (Byte.to_N b).

(** [struct reading] *)
Record reading : Type := Reading {
  humidity : spec_float;
  temperature : spec_float
}.

(** [(data[0] & 0x3f) << 8 | data[1]] *)
Definition humidity_raw (d : frame) : Z :=
  Z.lor (Z.shiftl (Z.land (uchar (data0 d)) 0x3f) 8) (uchar (data1 d)).

(** [data[2] << 8 | (data[3] & 0xfc)] *)
Definition temperature_raw (d : frame) : Z :=
  Z.lor (Z.shiftl (uchar (data2 d)) 8) (Z.land (uchar (data3 d)) 0xfc).

(** [(100.0 / 0x3fff)] *)
Definition humidity_scale : spec_float :=
  ddiv (double_of_int 100) (double_of_int 0x3fff).

(** [(165.0 / 0xfffc)] *)
Definition temperature_scale : spec_float :=
  ddiv (double_of_int 165) (double_of_int 0xfffc).

(** [r->humidity = raw * (100.0 / 0x3fff);] *)
Definition scale_humidity (raw : Z) : spec_float :=
  float_of_double (dmul (double_of_int raw) humidity_scale).

(** [r->temperature = raw * (165.0 / 0xfffc) - 40;] *)
Definition scale_temperature (raw : Z) : spec_float :=
  float_of_double
    (dsub (dmul (double_of_int raw) temperature_scale) (double_of_int 40)).

Definition decode (d : frame) : reading :=
  {| humidity := scale_humidity (humidity_raw d);
     temperature := scale_temperature (temperature_raw d) |}.

(** *** The reference decoder, written from the specification

    [humidity = ((b0 & 0x3f) << 8 | b1) * (100.0 / 16383.0)] and
    [temperature = ((b2 << 8) | (b3 & 0xfc)) * (165.0 / divisor) - 40.0],
    with the divisor left open so that the two constants the
    specification mentions (65532 and 16380) can be compared. *)
Module Reference.

Definition humidity_of (b0 b1 : Z) : spec_float :=
  float_of_double
    (dmul (double_of_int (Z.lor (Z.shiftl (Z.land b0 63) 8) b1))
          (ddiv (double_of_int 100) (double_of_int 16383))).

Definition temperature_with (divisor : Z) (b2 b3 : Z) : spec_float :=
  float_of_double
    (dsub (dmul (double_of_int (Z.lor (Z.shiftl b2 8) (Z.land b3 252)))
                (ddiv (double_of_int 165) (double_of_int divisor)))
          (double_of_int 40)).

Definition decode_with (divisor : Z) (d : frame) : reading :=
  {| humidity := humidity_of (uchar (data0 d)) (uchar (data1 d));
     temperature :=
       temperature_with divisor (uchar (data2 d)) (uchar (data3 d)) |}.

End Reference.

(** Two frames carry the same payload when they agree everywhere except,
    possibly, on the top two bits of byte 0 and the bottom two bits of
    byte 3. *)
Definition same_payload (d d' : frame) : Prop :=
  (forall i, 0 <= i < 6 ->
     Z.testbit (uchar (data0 d)) i = Z.testbit (uchar (data0 d')) i) /\
  data1 d = data1 d' /\
  data2 d = data2 d' /\
  (forall i, 2 <= i < 8 ->
     Z.testbit (uchar (data3 d)) i = Z.testbit (uchar (data3 d')) i).

(** *** Checked tables of floating-point values *)

(** [ascending f lo hi n r prev] checks the [n] values [f r], [f (r+1)],
    ...: each is strictly above its predecessor (the first one above
    [prev]) and within [lo, hi]. *)
Fixpoint ascending (f : Z -> spec_float) (lo hi : spec_float)
         (n : nat) (r : Z) (prev : spec_float) : bool :=
  match n with
  | O => true
  | S n' =>
      let v := f r in
      SFltb prev v && SFleb lo v && SFleb v hi
      && ascending f lo hi n' (r + 1) v
  end.

(** The values of [f] on [0 .. last] increase strictly within [lo, hi]. *)
Definition table_ok (f : Z -> spec_float) (lo hi : spec_float) (last : Z) : bool :=
  SFleb lo (f 0) && SFleb (f 0) hi
  && ascending f lo hi (Z.to_nat last) 1 (f 0).

(* ================================================================== *)
(** ** The process and the operating system *)
(* ================================================================== *)

(** A C string is modelled by the characters before its terminating NUL. *)

Definition nl : string := String (ascii_of_nat 10) EmptyString.
Definition tab : string := String (ascii_of_nat 9) EmptyString.

(** [printf("%d")] / [printf("%ld")] *)
Definition string_of_Z (z : Z) : string :=
  DecimalString.NilZero.string_of_int (Z.to_int z).

Inductive open_flags : Type := O_RDONLY | O_RDWR.

(** What the process does to the outside world, with the value each
    system call returned. *)
Inductive event : Type :=
| EvOpen (path : string) (flags : open_flags) (ret : Z)
| EvClose (fd : Z)
| EvRead (fd : Z) (count : Z) (ret : Z)
| EvWrite (fd : Z) (buf : list byte) (ret : Z)
| EvIoctl (fd request arg : Z) (ret : Z)
| EvOpendir (path : string) (ok : bool)
| EvReaddir (entry : option string)
| EvClosedir
| EvUsleep (usec : Z)
| EvSleep (sec : Z)
| EvStdout (text : string)
| EvPrintFloat (x : spec_float)      (* printf("%f", x) *)
| EvStderr (text : string)
| EvStderrErrno (text : string).     (* text, then ": strerror(errno)\n" *)

Definition trace : Type := list event.

(** The answers of the operating system.  Each may depend on everything
    the process did before. *)
Record world : Type := {
  (** [open(2)]: a descriptor, or a negative value. *)
  os_open : trace -> string -> open_flags -> Z;
  (** [read(2)]: [None] for an error, otherwise the bytes the descriptor
      has to deliver (the call returns at most [count] of them). *)
  os_read : trace -> Z -> option (list byte);
  (** [write(2)]: [None] for an error, otherwise how many bytes the
      descriptor accepts (the call transfers at most the buffer). *)
  os_write : trace -> Z -> list byte -> option nat;
  (** [ioctl(2)]: its return value. *)
  os_ioctl : trace -> Z -> Z -> Z -> Z;
  (** [opendir(3)]/[readdir(3)]: [None] when the directory cannot be
      opened, otherwise its entries in enumeration order and whether the
      enumeration ends with an error ([errno] set) instead of normally. *)
  os_opendir : trace -> string -> option (list string * bool)
}.

(** *** The exit/trace monad *)

Inductive outcome (A : Type) : Type :=
| Done (a : A)            (* the call returned [a] *)
| Exited (status : Z)     (* [exit(status)] was called *)
| OutOfFuel.              (* the polling loop is still running *)
Arguments Done {A} a.
Arguments Exited {A} status.
Arguments OutOfFuel {A}.

Definition M (A : Type) : Type := trace -> outcome A * trace.

Definition ret {A : Type} (a : A) : M A := fun t => (Done a, t).

Definition bind {A B : Type} (m : M A) (k : A -> M B) : M B :=
  fun t =>
    match m t with
    | (Done a, t') => k a t'
    | (Exited s, t') => (Exited s, t')
    | (OutOfFuel, t') => (OutOfFuel, t')
    end.

Definition exit {A : Type} (status : Z) : M A := fun t => (Exited status, t).

Definition emit (e : event) : M unit := fun t => (Done tt, (t ++ [e])%list).

Declare Scope proc_scope.
Delimit Scope proc_scope with proc.
Notation "x <- m ;; k" := (bind m (fun x => k))
  (at level 61, m at next level, right associativity) : proc_scope.
Notation "' p <- m ;; k" := (bind m (fun p => k))
  (at level 61, p pattern, m at next level, right associativity) : proc_scope.
Notation "m ;; k" := (bind m (fun _ => k))
  (at level 61, right associativity) : proc_scope.
Local Open Scope proc_scope.

(** [if (cond) action;] for an action that does not return a value. *)
Definition when (cond : bool) (action : M unit) : M unit :=
  if cond then action else ret tt.

(** *** libc *)

(** [memcmp(a, b, n)]: the difference of the first bytes that differ. *)
Fixpoint memcmp (a b : list byte) (n : nat) {struct n} : Z :=
  match n with
  | O => 0
  | S n' =>
      match a, b with
      | x :: a', y :: b' =>
          if Z.eqb (uchar x) (uchar y) then memcmp a' b' n'
          else uchar x - uchar y
      | _, _ => 0
      end
  end.

(** [isspace] in the C locale. *)
Definition isspace (c : ascii) : bool :=
  let n := Z.of_nat (nat_of_ascii c) in
  Z.eqb n 32 || (Z.leb 9 n && Z.leb n 13).

(** The value of a digit character, letters counting from ten. *)
Definition digit_of (c : ascii) : option Z :=
  let n := Z.of_nat (nat_of_ascii c) in
  if Z.leb 48 n && Z.leb n 57 then Some (n - 48)
  else if Z.leb 97 n && Z.leb n 122 then Some (n - 97 + 10)
  else if Z.leb 65 n && Z.leb n 90 then Some (n - 65 + 10)
  else None.

Definition digit_in (base : Z) (c : ascii) : option Z :=
  match digit_of c with
  | Some d => if Z.ltb d base then Some d else None
  | None => None
  end.

Fixpoint skip_spaces (s : string) : string :=
  match s with
  | String c s' => if isspace c then skip_spaces s' else s
  | EmptyString => s
  end.

Fixpoint scan_digits (base acc : Z) (s : string) : Z * string :=
  match s with
  | String c s' =>
      match digit_in base c with
      | Some d => scan_digits base (acc * base + d) s'
      | None => (acc, s)
      end
  | EmptyString => (acc, s)
  end.

(** [long] on LP64 Linux. *)
Definition LONG_MAX : Z := 2 ^ 63 - 1.
Definition LONG_MIN : Z := - 2 ^ 63.
Definition clamp_long (v : Z) : Z := Z.max LONG_MIN (Z.min LONG_MAX v).

Definition strip_sign (s : string) : bool * string :=
  match s with
  | String c r =>
      if Ascii.eqb c "-" then (true, r)
      else if Ascii.eqb c "+" then (false, r)
      else (false, s)
  | EmptyString => (false, s)
  end.

Definition is_x (c : ascii) : bool :=
  Ascii.eqb c "x" || Ascii.eqb c "X".

Definition starts_with_digit (base : Z) (s : string) : bool :=
  match s with
  | String c _ => match digit_in base c with Some _ => true | None => false end
  | EmptyString => false
  end.

(** The base and the start of the digits: a [0x]/[0X] prefix followed by
    a hexadecimal digit selects base 16 and is skipped; otherwise with
    base 0 a leading [0] selects octal and anything else decimal. *)
Definition select_base (base : Z) (s : string) : Z * string :=
  match s with
  | String c r =>
      if Ascii.eqb c "0" then
        match r with
        | String x r' =>
            if (Z.eqb base 0 || Z.eqb base 16) && is_x x
               && starts_with_digit 16 r'
            then (16, r')
            else (if Z.eqb base 0 then 8 else base, s)
        | EmptyString => (if Z.eqb base 0 then 8 else base, s)
        end
      else (if Z.eqb base 0 then 10 else base, s)
  | EmptyString => (if Z.eqb base 0 then 10 else base, s)
  end.

(** [strtol(nptr, &endptr, base)] of ISO C: the converted value and the
    rest of the string at [endptr].  When no digits are found nothing is
    consumed: [endptr] is [nptr]. *)
Definition strtol (nptr : string) (base : Z) : Z * string :=
  let '(neg, s2) := strip_sign (skip_spaces nptr) in
  let '(b, s3) := select_base base s2 in
  if starts_with_digit b s3 then
    let '(v, rest) := scan_digits b 0 s3 in
    (clamp_long (if neg then - v else v), rest)
  else (0, nptr).

(** Conversion [long -> int]. *)
Definition cast_int (z : Z) : Z := (z + 2 ^ 31) mod 2 ^ 32 - 2 ^ 31.

(** [atoi(s)], which is [(int) strtol(s, NULL, 10)]. *)
Definition atoi (s : string) : Z := cast_int (fst (strtol s 10)).

(** *** The texts the program prints *)

Definition short_read_message (n : Z) : string :=
  ("short read (" ++ string_of_Z n ++ " bytes)" ++ nl)%string.

Definition conflict_message : string :=
  ("Cannot use both -d and -b options" ++ nl ++ nl)%string.

Definition bad_address_message (s : string) : string :=
  ("bad slave address '" ++ s ++ "'" ++ nl)%string.

Definition out_of_range_message (n : Z) : string :=
  ("slave address " ++ string_of_Z n ++ " outside legal range" ++ nl)%string.

Definition usage_text : string :=
  ("Usage: hyt-read [ -b I2C bus name | -d device file ] [ -a I2C slave address ]" ++ nl
   ++ "                [ -i seconds ] [ -T ] [ -H ]" ++ nl
   ++ "Options:" ++ nl
   ++ tab ++ "-b X" ++ tab ++ "Open the I2C bus named X (e.g. bcm2708_i2c.1)" ++ nl
   ++ tab ++ "-d X" ++ tab ++ "Open the I2C device named X (e.g. /dev/i2c-0)" ++ nl
   ++ tab ++ "-a X" ++ tab ++ "Target I2C slave address X (default 0x28)" ++ nl
   ++ tab ++ "-i X" ++ tab ++ "Read data every X seconds" ++ nl
   ++ tab ++ "-T" ++ tab ++ "Print only temperature" ++ nl
   ++ tab ++ "-H" ++ tab ++ "Print only humidity" ++ nl
   ++ tab ++ "-h" ++ tab ++ "Show this message" ++ nl ++ nl)%string.

(* ================================================================== *)
(** ** The program *)
(* ================================================================== *)

Section Program.

Variable W : world.

(** *** System calls *)

Definition sys_open (path : string) (flags : open_flags) : M Z :=
  fun t =>
    let fd := os_open W t path flags in
    (Done fd, (t ++ [EvOpen path flags fd])%list).

Definition sys_read (fd count : Z) : M (Z * list byte) :=
  fun t =>
    match os_read W t fd with
    | None => (Done (-1, []), (t ++ [EvRead fd count (-1)])%list)
    | Some avail =>
        let got := firstn (Z.to_nat count) avail in
        let sz := Z.of_nat (List.length got) in
        (Done (sz, got), (t ++ [EvRead fd count sz])%list)
    end.

Definition sys_write (fd : Z) (buf : list byte) : M Z :=
  fun t =>
    let sz := match os_write W t fd buf with
              | None => -1
              | Some n => Z.of_nat (Nat.min n (List.length buf))
              end in
    (Done sz, (t ++ [EvWrite fd buf sz])%list).

Definition sys_ioctl (fd request arg : Z) : M Z :=
  fun t =>
    let r := os_ioctl W t fd request arg in
    (Done r, (t ++ [EvIoctl fd request arg r])%list).

Definition sys_opendir (path : string) : M (option (list string * bool)) :=
  fun t =>
    match os_opendir W t path with
    | None => (Done None, (t ++ [EvOpendir path false])%list)
    | Some dp => (Done (Some dp), (t ++ [EvOpendir path true])%list)
    end.

Definition sys_close (fd : Z) : M unit := emit (EvClose fd).
Definition usleep (usec : Z) : M unit := emit (EvUsleep usec).
Definition sleep (sec : Z) : M unit := emit (EvSleep (sec mod 2 ^ 32)).

(** *** hyt-read.c *)

(** lines 15-25 *)
Definition die_errno (msg : string) : M unit :=
  emit (EvStderrErrno msg) ;; exit 1.

(** lines 27-31 *)
Definition die_alloc : M unit :=
  emit (EvStderr ("failed to allocate memory" ++ nl)) ;; exit 1.

(** Lines 60-61: the comparison of what was read with the wanted name.
    [got] bytes were read into [buf]; the result is the C truth value of
    [memcmp(want, buf, len) == 0] when the length test passes and the
    initial [res = 0] otherwise. *)
Definition compare_name (want : list byte) (got : Z) (buf : list byte) : Z :=
  let len := Z.of_nat (List.length want) in
  if Z.eqb got len
     || (Z.eqb got (len + 1)
         && Z.eqb (uchar (nth (Z.to_nat len) buf x00)) 10)
  then (if Z.eqb (memcmp want buf (Z.to_nat len)) 0 then 1 else 0)
  else 0.

(** Lines 34-66.  When [read] fails, line 56 hands [path] to [die_errno]
    after line 51 has freed it, so the text the C program prints there is
    indeterminate.  The path stands for it here; the theorems about this
    failure leave the text open. *)
Definition name_file_matches (dir subdir want : string) : M Z :=
  let len := Z.of_nat (String.length want) in
  let path := (dir ++ "/" ++ subdir ++ "/name")%string in
  when (Z.ltb (Z.of_nat (String.length path)) 2) die_alloc ;;
  fd <- sys_open path O_RDONLY ;;
  when (Z.ltb fd 0) (die_errno ("opening " ++ path)) ;;
  '(got, buf) <- sys_read fd (len + 2) ;;
  when (Z.ltb got 0) (die_errno ("reading " ++ path)) ;;
  let res := compare_name (list_byte_of_string want) got buf in
  sys_close fd ;;
  ret res.

(** lines 69-83 *)
Definition open_i2c_dev (file : string) : M Z :=
  let path := ("/dev/" ++ file)%string in
  when (Z.ltb (Z.of_nat (String.length path)) 1) die_alloc ;;
  fd <- sys_open path O_RDWR ;;
  when (Z.ltb fd 0) (die_errno ("opening " ++ path)) ;;
  ret fd.

(** [de->d_name[0] == '.'] *)
Definition hidden (d_name : string) : bool :=
  match d_name with
  | String c _ => Ascii.eqb c "."
  | EmptyString => false
  end.

(** Lines 94-115: the [for (;;)] loop over [readdir], and what follows it
    when the enumeration ends. *)
Fixpoint scan_entries (dir name : string) (entries : list string)
         (fails : bool) : M Z :=
  match entries with
  | [] =>
      emit (EvReaddir None) ;;
      when fails (die_errno ("reading directory " ++ dir)) ;;
      emit (EvStderr ("could not find i2c bus " ++ name ++ nl)) ;;
      exit 1
  | d_name :: rest =>
      emit (EvReaddir (Some d_name)) ;;
      if hidden d_name then scan_entries dir name rest fails
      else
        m <- name_file_matches dir d_name name ;;
        if negb (Z.eqb m 0) then
          fd <- open_i2c_dev d_name ;;
          emit EvClosedir ;;
          ret fd
        else scan_entries dir name rest fails
  end.

(** lines 86-116 *)
Definition open_i2c_bus (name : string) : M Z :=
  let dir := "/sys/class/i2c-dev"%string in
  dp <- sys_opendir dir ;;
  match dp with
  | None => die_errno ("opening directory " ++ dir) ;; exit 1
  | Some (entries, fails) => scan_entries dir name entries fails
  end.

(** [read] fills the first bytes of [data]. *)
Definition frame_store (d : frame) (bs : list byte) : frame :=
  match bs with
  | [] => d
  | [a] => Frame a (data1 d) (data2 d) (data3 d)
  | [a; b] => Frame a b (data2 d) (data3 d)
  | [a; b; c] => Frame a b c (data3 d)
  | a :: b :: c :: e :: _ => Frame a b c e
  end.

(** Lines 123-158.  Only [data[0]] is initialised; the other three bytes
    are indeterminate until [read] overwrites them and are not looked at
    before. *)
Definition take_reading (fd : Z) : M reading :=
  let data := Frame x00 x00 x00 x00 in
  sz <- sys_write fd [data0 data] ;;
  when (Z.ltb sz 0) (die_errno "writing to i2c") ;;
  usleep (60 * 1000) ;;
  '(sz, got) <- sys_read fd 4 ;;
  let data := frame_store data got in
  when (Z.ltb sz 0) (die_errno "reading from i2c") ;;
  when (Z.ltb sz 4)
       (emit (EvStderr (short_read_message (cast_int sz))) ;;
        exit 1) ;;
  ret (decode data).

(** lines 160-173 *)
Definition usage : M unit :=
  emit (EvStdout usage_text) ;; exit 1.

(** lines 175-179 *)
Definition both_b_and_d : M unit :=
  emit (EvStderr conflict_message) ;;
  usage.

(** lines 181-197 *)
Definition parse_i2c_slave_address (s : string) : M Z :=
  let '(n, endptr) := strtol s 0 in
  when (String.eqb endptr s || negb (String.eqb endptr EmptyString))
       (emit (EvStderr (bad_address_message s)) ;;
        exit 1) ;;
  when (Z.ltb n 0x3 || Z.gtb n 0x77)
       (emit (EvStderr (out_of_range_message n)) ;;
        exit 1) ;;
  ret n.

(** The local variables of [main]. *)
Record vars : Type := Vars {
  v_fd : Z;
  v_interval : Z;
  v_ptemp : Z;
  v_phum : Z;
  v_slave : Z
}.

Definition I2C_SLAVE : Z := 0x0703.

(** Lines 206-243: the [switch] on one option returned by [getopt], with
    its argument [optarg]. *)
Definition option_case (c : ascii) (optarg : string) (v : vars) : M vars :=
  match c with
  | "H"%char =>
      ret (Vars (v_fd v) (v_interval v) (v_ptemp v) 1 (v_slave v))
  | "T"%char =>
      ret (Vars (v_fd v) (v_interval v) 1 (v_phum v) (v_slave v))
  | "b"%char =>
      when (negb (Z.eqb (v_fd v) 0)) both_b_and_d ;;
      fd <- open_i2c_bus optarg ;;
      ret (Vars fd (v_interval v) (v_ptemp v) (v_phum v) (v_slave v))
  | "d"%char =>
      when (negb (Z.eqb (v_fd v) 0)) both_b_and_d ;;
      fd <- sys_open optarg O_RDWR ;;
      when (Z.ltb fd 0) (die_errno ("opening " ++ optarg)) ;;
      ret (Vars fd (v_interval v) (v_ptemp v) (v_phum v) (v_slave v))
  | "i"%char =>
      ret (Vars (v_fd v) (atoi optarg) (v_ptemp v) (v_phum v) (v_slave v))
  | "a"%char =>
      slave <- parse_i2c_slave_address optarg ;;
      ret (Vars (v_fd v) (v_interval v) (v_ptemp v) (v_phum v) slave)
  | "h"%char =>
      usage ;; ret v
  | _ => ret v
  end.

(** Lines 205-244: the [while] loop over the options.  [getopt(3)]
    belongs to libc; the sequence of its results (option character and
    [optarg]) is taken as given. *)
Fixpoint getopt_loop (opts : list (ascii * string)) (v : vars) : M vars :=
  match opts with
  | [] => ret v
  | (c, optarg) :: rest =>
      v' <- option_case c optarg v ;;
      getopt_loop rest v'
  end.

(** Lines 266-283: the [do ... while (interval > 0)] loop, cut after
    [fuel] iterations. *)
Fixpoint poll (fuel : nat) (v : vars) : M unit :=
  match fuel with
  | O => fun t => (OutOfFuel, t)
  | S fuel' =>
      r <- take_reading (v_fd v) ;;
      when (negb (Z.eqb (v_phum v) 0)) (emit (EvPrintFloat (humidity r))) ;;
      when (negb (Z.eqb (v_ptemp v) 0))
           (emit (EvStdout (if negb (Z.eqb (v_phum v) 0)
                            then " " else EmptyString)) ;;
            emit (EvPrintFloat (temperature r))) ;;
      emit (EvStdout nl) ;;
      sleep (v_interval v) ;;
      if Z.gtb (v_interval v) 0 then poll fuel' v else ret tt
  end.

(** Lines 205-263: everything [main] does before the first reading.
    [extra] says whether arguments remain after the options
    ([optind != argc]). *)
Definition startup (opts : list (ascii * string)) (extra : bool) : M vars :=
  v <- getopt_loop opts (Vars 0 0 0 0 0x28) ;;
  when extra usage ;;
  when (Z.eqb (v_fd v) 0)
       (emit (EvStderr ("Either the -d or -b option must be present"
                          ++ nl ++ nl)) ;;
        usage) ;;
  let v := if Z.eqb (v_ptemp v) 0 && Z.eqb (v_phum v) 0
           then Vars (v_fd v) (v_interval v) 1 1 (v_slave v)
           else v in
  r <- sys_ioctl (v_fd v) I2C_SLAVE (v_slave v) ;;
  when (Z.ltb r 0) (die_errno "ioctl(I2C_SLAVE)") ;;
  ret v.

(** lines 199-287 *)
Definition main (fuel : nat) (opts : list (ascii * string)) (extra : bool)
  : M Z :=
  v <- startup opts extra ;;
  poll fuel v ;;
  sys_close (v_fd v) ;;
  ret 0.

End Program.


(* ================================================================== *)
(** ** Vocabulary of the statements *)
(* ================================================================== *)

(** *** The sensor transaction *)

(** What the [write] of the start-measurement byte returns at history
    [t]. *)
Definition write_result (W : world) (t : trace) (fd : Z) : Z :=
  match os_write W t fd [x00] with
  | None => -1
  | Some n => Z.of_nat (Nat.min n 1)
  end.

(** The history at the moment [take_reading] issues its [read]: the
    write and the 60 ms delay have happened. *)
Definition before_read (W : world) (t : trace) (fd : Z) : trace :=
  (t ++ [EvWrite fd [x00] (write_result W t fd); EvUsleep 60000])%list.

(** *** The option loop *)

(** The descriptor held by [main] is either still the initial 0 or was
    returned by an [open] of a device node recorded in the history. *)
Definition fd_opened (v : vars) (t : trace) : Prop :=
  v_fd v = 0 \/ exists path, In (EvOpen path O_RDWR (v_fd v)) t.

(** Device nodes are the files the program opens read-write. *)
Definition opens_device (e : event) : bool :=
  match e with
  | EvOpen _ O_RDWR _ => true
  | _ => false
  end.

(** The mutual exclusion of [-b] and [-d] as the specification states it:
    whenever both options occur, the run ends in the conflict message,
    the usage text and exit status 1, and no device node was opened
    before. *)
Definition C9_claim (W : world) (opts : list (ascii * string)) : Prop :=
  (exists x, In ("b"%char, x) opts) ->
  (exists y, In ("d"%char, y) opts) ->
  forall fuel extra,
  exists t,
    main W fuel opts extra [] =
      (Exited 1, (t ++ [EvStderr conflict_message; EvStdout usage_text])%list) /\
    forallb (fun e => negb (opens_device e)) t = true.

(** What the processing of the options may leave in the history: no
    [ioctl], no [write], no sleep and no printed reading, and a [read]
    only as the event directly after the read-only [open] that returned
    its descriptor, which is how [name_file_matches] reads a registry
    file.  [prev] is that descriptor when the event before [l] was such
    an [open]. *)
Fixpoint lookup_only (prev : option Z) (l : trace) : bool :=
  match l with
  | [] => true
  | e :: l' =>
      match e with
      | EvRead fd _ _ =>
          match prev with
          | Some fd0 => Z.eqb fd fd0
          | None => false
          end
      | EvIoctl _ _ _ _ | EvWrite _ _ _ | EvUsleep _ | EvSleep _
      | EvPrintFloat _ => false
      | _ => true
      end
      && lookup_only (match e with
                      | EvOpen _ O_RDONLY fd => Some fd
                      | _ => None
                      end) l'
  end.

(** A computation that extends the history in that way only. *)
Definition only_lookup {A : Type} (m : M A) : Prop :=
  forall t, exists evs,
    snd (m t) = (t ++ evs)%list /\ lookup_only None evs = true.

(** *** Numerals *)

Fixpoint digits_only (base : Z) (s : string) : bool :=
  match s with
  | EmptyString => true
  | String c s' =>
      match digit_in base c with
      | Some _ => digits_only base s'
      | None => false
      end
  end.

Fixpoint spaces_only (s : string) : bool :=
  match s with
  | EmptyString => true
  | String c s' => isspace c && spaces_only s'
  end.

Definition digit_value (c : ascii) : Z :=
  match digit_of c with Some d => d | None => 0 end.

(** The value of a digit string, most significant digit first. *)
Fixpoint horner (base acc : Z) (s : string) : Z :=
  match s with
  | EmptyString => acc
  | String c s' => horner base (acc * base + digit_value c) s'
  end.

Definition numeral_value (base : Z) (s : string) : Z := horner base 0 s.

(** The integer literals [strtol] converts with base 0: a decimal
    numeral that does not start with [0], an octal numeral after a
    leading [0], a hexadecimal numeral after [0x] or [0X]. *)
Inductive c_literal : string -> Z -> Prop :=
| literal_decimal (c : ascii) (s : string) :
    Ascii.eqb c "0" = false ->
    digits_only 10 (String c s) = true ->
    c_literal (String c s) (numeral_value 10 (String c s))
| literal_octal (s : string) :
    digits_only 8 s = true ->
    c_literal (String "0" s) (numeral_value 8 s)
| literal_hex (x c : ascii) (s : string) :
    is_x x = true ->
    digits_only 16 (String c s) = true ->
    c_literal (String "0" (String x (String c s)))
              (numeral_value 16 (String c s)).

(** The strings [parse_i2c_slave_address] accepts, with their value:
    white space, an optional [+], a literal, nothing after it, and a
    value from 0x03 to 0x77. *)
Definition accepted_address (s : string) (n : Z) : Prop :=
  exists ws sign body : string,
    s = (ws ++ sign ++ body)%string /\
    spaces_only ws = true /\
    (sign = EmptyString \/ sign = "+"%string) /\
    c_literal body n /\
    0x03 <= n <= 0x77.

(** The address syntax as the specification words it: decimal digits, or
    [0x]/[0X] followed by hexadecimal digits. *)
Definition claimed_integer (s : string) : option Z :=
  match s with
  | String c (String x r) =>
      if Ascii.eqb c "0" && is_x x then
        if negb (String.eqb r EmptyString) && digits_only 16 r
        then Some (numeral_value 16 r) else None
      else if digits_only 10 s then Some (numeral_value 10 s) else None
  | _ =>
      if negb (String.eqb s EmptyString) && digits_only 10 s
      then Some (numeral_value 10 s) else None
  end.

(** Address parsing as the specification states it: success with value
    [n] exactly when the argument is such an integer and [n] lies in
    [0x03, 0x77]. *)
Definition C8_claim (s : string) : Prop :=
  forall (n : Z) (t : trace),
    parse_i2c_slave_address s t = (Done n, t) <->
    (claimed_integer s = Some n /\ 0x03 <= n <= 0x77).

(** The octal reading as the specification states it: every argument
    made of a leading [0] and decimal digits is accepted with the value
    of its digits in base 8, provided that value lies in [0x03, 0x77]. *)
Definition C10_claim (ds : string) : Prop :=
  digits_only 10 ds = true ->
  0x03 <= numeral_value 8 ds <= 0x77 ->
  forall t : trace,
    parse_i2c_slave_address (String "0" ds) t = (Done (numeral_value 8 ds), t).

(* ================================================================== *)
(** ** Vocabulary of the further properties *)
(* ================================================================== *)

(** An ordinary number: neither NaN nor an infinity. *)
Definition is_finite (x : spec_float) : bool :=
  match x with
  | S754_zero _ | S754_finite _ _ _ => true
  | _ => false
  end.

(** Texts written to standard output or standard error. *)
Definition is_message (e : event) : bool :=
  match e with
  | EvStdout _ | EvStderr _ | EvStderrErrno _ => true
  | _ => false
  end.

(** The directory [open_i2c_bus] scans (line 88). *)
Definition registry : string := "/sys/class/i2c-dev".

(** [readdir] returning the entries of [ds] one after the other. *)
Definition readdir_events (ds : list string) : trace :=
  map (fun d => EvReaddir (Some d)) ds.

(** The files a scan of the registry may open. *)
Definition opened_for (dir : string) (entries : list string)
           (p : string) (fl : open_flags) : Prop :=
  exists d, In d entries /\ hidden d = false /\
    ((p = (dir ++ "/" ++ d ++ "/name")%string /\ fl = O_RDONLY) \/
     (p = ("/dev/" ++ d)%string /\ fl = O_RDWR)).

(** What the file of an entry must hold for the entry to be taken. *)
Definition names_bus (content : list byte) (name : string) : Prop :=
  content = list_byte_of_string name \/
  content = (list_byte_of_string name ++ [x0a])%list.

(** Every [exit] of a computation has status 1. *)
Definition exits_one {A : Type} (m : M A) : Prop :=
  forall t s t', m t = (Exited s, t') -> s = 1.

(** [-b] and [-d], the options that name a device. *)
Definition device_option (c : ascii) : bool :=
  Ascii.eqb c "b" || Ascii.eqb c "d".

(** Whether option [c] occurs among the results of [getopt]. *)
Definition given (c : ascii) (opts : list (ascii * string)) : bool :=
  existsb (fun o => Ascii.eqb (fst o) c) opts.

(** The argument of the last occurrence of option [c]. *)
Fixpoint last_arg (c : ascii) (opts : list (ascii * string)) : option string :=
  match opts with
  | [] => None
  | (c', a) :: rest =>
      match last_arg c rest with
      | Some s => Some s
      | None => if Ascii.eqb c' c then Some a else None
      end
  end.

(** The message of lines 253-254. *)
Definition missing_device_message : string :=
  ("Either the -d or -b option must be present" ++ nl ++ nl)%string.

(** Lines 271-280: the line printed for one reading. *)
Definition report (v : vars) (r : reading) : trace :=
  ((if negb (Z.eqb (v_phum v) 0) then [EvPrintFloat (humidity r)] else []) ++
   (if negb (Z.eqb (v_ptemp v) 0)
    then [EvStdout (if negb (Z.eqb (v_phum v) 0) then " " else EmptyString);
          EvPrintFloat (temperature r)]
    else []) ++
   [EvStdout nl])%list.


(** A computation extends the history, and only by events of one kind. *)
Definition emits_only {A : Type} (P : event -> bool) (m : M A) : Prop :=
  forall t, exists evs, snd (m t) = (t ++ evs)%list /\ forallb P evs = true.

(** Everything but a [write]. *)
Definition no_write (e : event) : bool :=
  match e with
  | EvWrite _ _ _ => false
  | _ => true
  end.

(** What the polling loop may do once the descriptor [fd] is bound:
    no [ioctl], and [write] on [fd] only. *)
Definition transfer_on (fd : Z) (e : event) : bool :=
  match e with
  | EvWrite fd' _ _ => Z.eqb fd' fd
  | EvIoctl _ _ _ _ => false
  | _ => true
  end.

(** The descriptor bound to a slave address: that of the latest
    successful [ioctl(I2C_SLAVE)]. *)
Definition bind_slave (bound : option Z) (e : event) : option Z :=
  match e with
  | EvIoctl fd request _ r =>
      if Z.eqb request I2C_SLAVE && Z.leb 0 r then Some fd else bound
  | _ => bound
  end.

(** Every [write] of a history goes to the descriptor bound at that
    moment. *)
Fixpoint writes_guarded (bound : option Z) (l : trace) : bool :=
  match l with
  | [] => true
  | e :: l' =>
      match e with
      | EvWrite fd _ _ =>
          match bound with
          | Some b => Z.eqb fd b
          | None => false
          end
      | _ => true
      end && writes_guarded (bind_slave bound e) l'
  end.

(* ================================================================== *)
(** ** A small machine to run the program on *)
(* ================================================================== *)

(** The path a descriptor was last opened on, read off the history. *)
Definition fd_path (t : trace) (fd : Z) : option string :=
  fold_left
    (fun acc e =>
       match e with
       | EvOpen p _ r => if Z.eqb r fd then Some p else acc
       | EvClose f => if Z.eqb f fd then None else acc
       | _ => acc
       end)
    t None.

(** Two buses, [i2c-0] named [bcm.0] and [i2c-1] named [bcm.1], with the
    registry files ending in a newline as sysfs writes them.  [accepts]
    is what a write to a bus device transfers and [sensor] what a read
    from it delivers.  Every successful [open] returns descriptor 3. *)
Definition machine (accepts : option nat) (sensor : option (list byte)) : world :=
  {| os_open := fun _ path _ =>
       if String.eqb path "/sys/class/i2c-dev/i2c-0/name"
          || String.eqb path "/sys/class/i2c-dev/i2c-1/name"
          || String.eqb path "/dev/i2c-0"
          || String.eqb path "/dev/i2c-1"
       then 3 else -1;
     os_read := fun t fd =>
       match fd_path t fd with
       | Some p =>
           if String.eqb p "/sys/class/i2c-dev/i2c-0/name"
           then Some (list_byte_of_string ("bcm.0" ++ nl))
           else if String.eqb p "/sys/class/i2c-dev/i2c-1/name"
           then Some (list_byte_of_string ("bcm.1" ++ nl))
           else sensor
       | None => None
       end;
     os_write := fun t fd _ =>
       match fd_path t fd with
       | Some _ => accepts
       | None => None
       end;
     os_ioctl := fun _ _ _ _ => 0;
     os_opendir := fun _ path =>
       if String.eqb path "/sys/class/i2c-dev"
       then Some (["."; ".."; "i2c-0"; "i2c-1"]%string, false)
       else None |}.

(** A healthy sensor: every write is taken, every read delivers the
    frame [{0x1f, 0xff, 0x66, 0x64}]. *)
Definition healthy : world := machine (Some 1%nat) (Some [x1f; xff; x66; x64]).

(** A bus that takes none of the byte written to it. *)
Definition stalled_write : world :=
  machine (Some 0%nat) (Some [x1f; xff; x66; x64]).

(** A sensor that delivers two bytes only. *)
Definition short_sensor : world := machine (Some 1%nat) (Some [x1f; xff]).

(** A machine on which every system call fails, except that [open]
    succeeds with descriptor 3. *)
Definition failing : world :=
  {| os_open := fun _ _ _ => 3;
     os_read := fun _ _ => None;
     os_write := fun _ _ _ => None;
     os_ioctl := fun _ _ _ _ => -1;
     os_opendir := fun _ _ => None |}.

(** A registry that holds the two dot entries only; every other call
    fails. *)
Definition dot_only : world :=
  {| os_open := fun _ _ _ => -1;
     os_read := fun _ _ => None;
     os_write := fun _ _ _ => None;
     os_ioctl := fun _ _ _ _ => -1;
     os_opendir := fun _ _ => Some (["."; ".."]%string, false) |}.


(* ################################################################## *)
(** * Part II: lemmas and theorems *)
(* ################################################################## *)

(* ================================================================== *)
(** ** Facts about bytes and the raw fields *)
(* ================================================================== *)

Lemma uchar_range (b : byte) : 0 <= uchar b < 256.
Proof.
  unfold uchar. pose proof (Byte.to_N_bounded b). lia.
Qed.

(** Bitwise "or" of two naturals below [2^n] stays below [2^n]. *)
Lemma lor_below_pow2 (a b n : Z) :
  0 <= n -> 0 <= a < 2 ^ n -> 0 <= b < 2 ^ n -> 0 <= Z.lor a b < 2 ^ n.
Proof.
  intros Hn Ha Hb. split.
  - apply Z.lor_nonneg. lia.
  - destruct (Z.eq_dec a 0) as [-> | Ha0].
    + rewrite Z.lor_0_l. lia.
    + destruct (Z.eq_dec b 0) as [-> | Hb0].
      * rewrite Z.lor_0_r. lia.
      * apply Z.log2_lt_pow2.
        { assert (0 <= Z.lor a b) by (apply Z.lor_nonneg; lia).
          assert (Z.lor a b <> 0) by (rewrite Z.lor_eq_0_iff; lia).
          lia. }
        rewrite Z.log2_lor by lia.
        apply Z.max_lub_lt; apply Z.log2_lt_pow2; lia.
Qed.

Lemma land_mask_range (a m : Z) : 0 <= a -> 0 <= m -> 0 <= Z.land a m <= m.
Proof.
  intros Ha Hm. split.
  - apply Z.land_nonneg. lia.
  - destruct (Z.eq_dec m 0) as [-> | Hm0].
    + rewrite Z.land_0_r. lia.
    + destruct (Z.eq_dec (Z.land a m) 0) as [-> | Hl0]; [lia |].
      assert (0 <= Z.land a m) by (apply Z.land_nonneg; lia).
      assert (Hsub : Z.ldiff (Z.land a m) m = 0).
      { apply Z.bits_inj'. intros i Hi.
        rewrite Z.ldiff_spec, Z.land_spec, Z.bits_0.
        destruct (Z.testbit a i), (Z.testbit m i); reflexivity. }
      apply Z.ldiff_le in Hsub; lia.
Qed.

Lemma humidity_raw_range (d : frame) : 0 <= humidity_raw d < 16384.
Proof.
  unfold humidity_raw.
  pose proof (uchar_range (data0 d)) as H0.
  pose proof (uchar_range (data1 d)) as H1.
  pose proof (land_mask_range (uchar (data0 d)) 0x3f ltac:(lia) ltac:(lia)) as Hm.
  change 16384 with (2 ^ 14).
  apply lor_below_pow2; try lia.
  rewrite Z.shiftl_mul_pow2 by lia. change (2 ^ 8) with 256.
  change (2 ^ 14) with 16384. lia.
Qed.

Lemma temperature_raw_range (d : frame) : 0 <= temperature_raw d < 65536.
Proof.
  unfold temperature_raw.
  pose proof (uchar_range (data2 d)) as H2.
  pose proof (uchar_range (data3 d)) as H3.
  pose proof (land_mask_range (uchar (data3 d)) 0xfc ltac:(lia) ltac:(lia)) as Hm.
  change 65536 with (2 ^ 16).
  apply lor_below_pow2; try lia.
  rewrite Z.shiftl_mul_pow2 by lia. change (2 ^ 8) with 256.
  change (2 ^ 16) with 65536. lia.
Qed.

(** The temperature field is always a multiple of four: its two low bits
    are cleared by the mask [0xfc]. *)
Lemma temperature_raw_mult4 (d : frame) :
  exists q, 0 <= q < 16384 /\ temperature_raw d = 4 * q.
Proof.
  pose proof (temperature_raw_range d) as Hr.
  assert (Hlow : Z.land (temperature_raw d) (Z.ones 2) = 0).
  { apply Z.bits_inj'. intros i Hi.
    rewrite Z.land_spec, Z.bits_0.
    destruct (Z.lt_ge_cases i 2) as [Hlt | Hge].
    - unfold temperature_raw.
      rewrite Z.lor_spec, Z.land_spec, Z.shiftl_spec_low by lia.
      assert (Hc : i = 0 \/ i = 1) by lia.
      destruct Hc as [-> | ->]; simpl;
        rewrite ?Bool.andb_false_r; reflexivity.
    - rewrite Z.ones_spec_high by lia. apply Bool.andb_false_r. }
  rewrite Z.land_ones in Hlow by lia. change (2 ^ 2) with 4 in Hlow.
  exists (temperature_raw d / 4). split.
  - split; [apply Z.div_pos; lia | apply Z.div_lt_upper_bound; lia].
  - pose proof (Z.div_mod (temperature_raw d) 4 ltac:(lia)). lia.
Qed.

(* ================================================================== *)
(** ** Ordering of floating-point values and checked tables *)
(* ================================================================== *)

Lemma SFltb_trans (x y z : spec_float) :
  SFltb x y = true -> SFltb y z = true -> SFltb x z = true.
Proof.
  unfold SFltb, SFcompare.
  destruct x as [sx | sx | | sx mx ex], y as [sy | sy | | sy my ey],
    z as [sz | sz | | sz mz ez];
    try destruct sx; try destruct sy; try destruct sz;
    try discriminate; try reflexivity; intros Hxy Hyz.
  - destruct (Z.compare_spec ex ey), (Z.compare_spec ey ez),
      (Z.compare_spec ex ez); try discriminate; try lia; subst.
    change (Pos.compare_cont Eq) with Pos.compare in *.
    destruct (Pos.compare_spec mx my), (Pos.compare_spec my mz),
      (Pos.compare_spec mx mz); simpl in *; try discriminate; try lia;
      reflexivity.
  - destruct (Z.compare_spec ex ey), (Z.compare_spec ey ez),
      (Z.compare_spec ex ez); try discriminate; try lia; subst.
    change (Pos.compare_cont Eq) with Pos.compare in *.
    destruct (Pos.compare_spec mx my), (Pos.compare_spec my mz),
      (Pos.compare_spec mx mz); simpl in *; try discriminate; try lia;
      reflexivity.
Qed.

Lemma ascending_spec (f : Z -> spec_float) (lo hi : spec_float) :
  forall (n : nat) (r : Z),
    ascending f lo hi n r (f (r - 1)) = true ->
    forall k, r <= k < r + Z.of_nat n ->
      SFltb (f (k - 1)) (f k) = true /\
      SFleb lo (f k) = true /\ SFleb (f k) hi = true.
Proof.
  induction n as [| n IH]; intros r Hasc k Hk; [lia |].
  cbn [ascending] in Hasc. cbv zeta in Hasc.
  apply andb_true_iff in Hasc. destruct Hasc as [Hasc Hrest].
  apply andb_true_iff in Hasc. destruct Hasc as [Hasc Hhi].
  apply andb_true_iff in Hasc. destruct Hasc as [Hlt Hlo].
  destruct (Z.eq_dec k r) as [-> | Hne]; [auto |].
  apply (IH (r + 1)); [| lia].
  replace (r + 1 - 1) with r by lia. exact Hrest.
Qed.

Lemma table_ok_bounds (f : Z -> spec_float) (lo hi : spec_float) (last : Z) :
  table_ok f lo hi last = true ->
  forall r, 0 <= r <= last -> SFleb lo (f r) = true /\ SFleb (f r) hi = true.
Proof.
  unfold table_ok. intros Hok r Hr.
  apply andb_true_iff in Hok. destruct Hok as [Hok Hasc].
  apply andb_true_iff in Hok. destruct Hok as [Hlo Hhi].
  destruct (Z.eq_dec r 0) as [-> | Hne]; [auto |].
  apply (ascending_spec f lo hi _ 1 Hasc r). lia.
Qed.

Lemma table_ok_increasing (f : Z -> spec_float) (lo hi : spec_float) (last : Z) :
  table_ok f lo hi last = true ->
  forall r1 r2, 0 <= r1 -> r1 < r2 -> r2 <= last -> SFltb (f r1) (f r2) = true.
Proof.
  unfold table_ok. intros Hok r1 r2 H1 H12 H2.
  apply andb_true_iff in Hok. destruct Hok as [_ Hasc].
  assert (Hadj : forall r, 1 <= r <= last -> SFltb (f (r - 1)) (f r) = true).
  { intros r Hr. apply (ascending_spec f lo hi _ 1 Hasc r). lia. }
  assert (Hstep : forall k : nat,
             r1 + 1 + Z.of_nat k <= last ->
             SFltb (f r1) (f (r1 + 1 + Z.of_nat k)) = true).
  { induction k as [| k IH]; intros Hk.
    - rewrite Z.add_0_r.
      replace (f r1) with (f (r1 + 1 - 1)) by (f_equal; lia).
      apply Hadj. lia.
    - apply SFltb_trans with (y := f (r1 + 1 + Z.of_nat k)).
      + apply IH. lia.
      + replace (f (r1 + 1 + Z.of_nat k))
          with (f (r1 + 1 + Z.of_nat (S k) - 1)) by (f_equal; lia).
        apply Hadj. lia. }
  replace r2 with (r1 + 1 + Z.of_nat (Z.to_nat (r2 - r1 - 1))) by lia.
  apply Hstep. lia.
Qed.

(** The two compile-time constants, evaluated. *)
Lemma humidity_scale_value :
  humidity_scale = S754_finite false 7037303940712000 (-60).
Proof. vm_compute. reflexivity. Qed.

Lemma temperature_scale_value :
  temperature_scale = S754_finite false 5805775751087400 (-61).
Proof. vm_compute. reflexivity. Qed.

(** Checked tables: the scaled value at every raw field the decoder can
    see.  Humidity fields are [0 .. 0x3fff]; temperature fields are the
    multiples of four in [0 .. 0xfffc]. *)
Lemma humidity_table :
  table_ok scale_humidity (float_of_int 0) (float_of_int 100) 16383 = true.
Proof.
  unfold scale_humidity. rewrite humidity_scale_value.
  vm_cast_no_check (eq_refl true).
Qed.

Lemma temperature_table :
  table_ok (fun q => scale_temperature (4 * q))
           (float_of_int (-40)) (float_of_int 125) 16383 = true.
Proof.
  unfold scale_temperature. rewrite temperature_scale_value.
  vm_cast_no_check (eq_refl true).
Qed.

(** What the decoder guarantees about the range of a reading: humidity
    within 0 and 100, temperature within -40 and 125. *)
Lemma decode_range (d : frame) :
  SFleb (float_of_int 0) (humidity (decode d)) = true /\
  SFleb (humidity (decode d)) (float_of_int 100) = true /\
  SFleb (float_of_int (-40)) (temperature (decode d)) = true /\
  SFleb (temperature (decode d)) (float_of_int 125) = true.
Proof.
  pose proof (humidity_raw_range d) as Hr.
  destruct (table_ok_bounds _ _ _ _ humidity_table (humidity_raw d))
    as [Hh0 Hh1]; [lia |].
  destruct (temperature_raw_mult4 d) as (q & Hq & Hraw).
  destruct (table_ok_bounds _ _ _ _ temperature_table q) as [Ht0 Ht1]; [lia |].
  cbn beta in Ht0, Ht1. rewrite <- Hraw in Ht0, Ht1.
  unfold decode; cbn [humidity temperature]. auto.
Qed.

(* ================================================================== *)
(** ** The decoder: boundary values *)
(* ================================================================== *)

Example decode_all_zero :
  decode (Frame x00 x00 x00 x00) =
  {| humidity := float_of_int 0; temperature := float_of_int (-40) |}.
Proof. vm_compute. reflexivity. Qed.

Example decode_full_scale :
  decode (Frame x3f xff xff xfc) =
  {| humidity := float_of_int 100; temperature := float_of_int 125 |}.
Proof. vm_compute. reflexivity. Qed.

(* ================================================================== *)
(** ** Masking of the status bits *)
(* ================================================================== *)

Lemma land_0x3f_bits (a b : Z) :
  (forall i, 0 <= i < 6 -> Z.testbit a i = Z.testbit b i) ->
  Z.land a 0x3f = Z.land b 0x3f.
Proof.
  intros Hbits. apply Z.bits_inj'. intros i Hi.
  rewrite !Z.land_spec.
  destruct (Z.lt_ge_cases i 6) as [Hlt | Hge].
  - rewrite Hbits by lia. reflexivity.
  - change 0x3f with (Z.ones 6). rewrite Z.ones_spec_high by lia.
    rewrite !Bool.andb_false_r. reflexivity.
Qed.

Lemma land_0xfc_bits (a b : Z) :
  (forall i, 2 <= i < 8 -> Z.testbit a i = Z.testbit b i) ->
  Z.land a 0xfc = Z.land b 0xfc.
Proof.
  intros Hbits. apply Z.bits_inj'. intros i Hi.
  rewrite !Z.land_spec.
  change 0xfc with (Z.shiftl (Z.ones 6) 2).
  destruct (Z.lt_ge_cases i 2) as [Hlt | Hge].
  - rewrite Z.shiftl_spec_low by lia.
    rewrite !Bool.andb_false_r. reflexivity.
  - destruct (Z.lt_ge_cases i 8) as [Hlt8 | Hge8].
    + rewrite Hbits by lia. reflexivity.
    + rewrite Z.shiftl_spec by lia. rewrite Z.ones_spec_high by lia.
      rewrite !Bool.andb_false_r. reflexivity.
Qed.

(* ================================================================== *)
(** ** Theorems about the decoder *)
(* ================================================================== *)

(** C1: for every 4-byte frame the decoder returns exactly the reference
    value, humidity [((b0 & 0x3f) << 8 | b1) * (100.0 / 16383.0)] and
    temperature [((b2 << 8) | (b3 & 0xfc)) * (165.0 / 65532.0) - 40.0];
    the divisor is 65532 and not 16380: with 16380 the reference differs
    from the decoder already on the full-scale frame. *)
Theorem C1_decode_equals_reference :
  (forall d : frame, decode d = Reference.decode_with 65532 d) /\
  temperature (decode (Frame x00 x00 xff xfc)) <>
  temperature (Reference.decode_with 16380 (Frame x00 x00 xff xfc)).
Proof.
  split.
  - intros d. reflexivity.
  - vm_compute. discriminate.
Qed.

(** C2: the status bits do not reach the reading.  Frames that agree on
    everything but the top two bits of byte 0 and the bottom two bits of
    byte 3 decode to the same reading; in particular
    [{0xC0,0x00,0x00,0x03}] decodes like [{0x00,0x00,0x00,0x00}]. *)
Theorem C2_status_bits_ignored :
  (forall d d' : frame, same_payload d d' -> decode d = decode d') /\
  decode (Frame xc0 x00 x00 x03) = decode (Frame x00 x00 x00 x00).
Proof.
  split.
  - intros d d' (H0 & H1 & H2 & H3).
    unfold decode, humidity_raw, temperature_raw.
    rewrite (land_0x3f_bits _ _ H0), (land_0xfc_bits _ _ H3), H1, H2.
    reflexivity.
  - vm_compute. reflexivity.
Qed.

Lemma C2_status_bits_ignored_witness :
  same_payload (Frame x95 x5a xa7 x6e) (Frame x55 x5a xa7 x6d) /\
  decode (Frame x95 x5a xa7 x6e) = decode (Frame x55 x5a xa7 x6d).
Proof.
  assert (Hp : same_payload (Frame x95 x5a xa7 x6e) (Frame x55 x5a xa7 x6d)).
  { repeat split.
    - intros i Hi.
      assert (Hc : i = 0 \/ i = 1 \/ i = 2 \/ i = 3 \/ i = 4 \/ i = 5) by lia.
      destruct Hc as [-> | [-> | [-> | [-> | [-> | ->]]]]]; reflexivity.
    - intros i Hi.
      assert (Hc : i = 2 \/ i = 3 \/ i = 4 \/ i = 5 \/ i = 6 \/ i = 7) by lia.
      destruct Hc as [-> | [-> | [-> | [-> | [-> | ->]]]]]; reflexivity. }
  split; [exact Hp |].
  exact (proj1 C2_status_bits_ignored _ _ Hp).
Defined.

(** C3 (evaluation at the failing frame): on [{0x00,0x00,0xff,0xfc}] the
    decoder returns a temperature of exactly 125, which is above 120. *)
Theorem C3_temperature_reaches_125 :
  temperature (decode (Frame x00 x00 xff xfc)) = float_of_int 125 /\
  SFleb (temperature (decode (Frame x00 x00 xff xfc))) (float_of_int 120) = false /\
  SFltb (float_of_int 120) (temperature (decode (Frame x00 x00 xff xfc))) = true.
Proof. vm_compute. repeat split. Qed.




(* ================================================================== *)
(** ** Running monadic code *)
(* ================================================================== *)

Lemma bind_done {A B : Type} (m : M A) (k : A -> M B) (t t' : trace) (a : A) :
  m t = (Done a, t') -> bind m k t = k a t'.
Proof. intros H. unfold bind. rewrite H. reflexivity. Qed.

Lemma bind_exited {A B : Type} (m : M A) (k : A -> M B) (t t' : trace) (s : Z) :
  m t = (Exited s, t') -> bind m k t = (Exited s, t').
Proof. intros H. unfold bind. rewrite H. reflexivity. Qed.

Lemma bind_inv_done {A B : Type} (m : M A) (k : A -> M B) (t t' : trace) (b : B) :
  bind m k t = (Done b, t') ->
  exists a t1, m t = (Done a, t1) /\ k a t1 = (Done b, t').
Proof.
  unfold bind. destruct (m t) as [[a | s |] t1]; intros H;
    try discriminate. eauto.
Qed.

Lemma when_inv_done (cond : bool) (action : M unit) (t t' : trace) (u : unit) :
  when cond action t = (Done u, t') ->
  (cond = false /\ t' = t) \/ (cond = true /\ action t = (Done u, t')).
Proof.
  unfold when, ret. destruct cond; intros H; [right; auto |].
  inversion H. left. auto.
Qed.

Lemma die_errno_never_returns (msg : string) (t t' : trace) (u : unit) :
  die_errno msg t <> (Done u, t').
Proof. unfold die_errno, bind, emit, exit. discriminate. Qed.

Lemma usage_exits (t : trace) :
  usage t = (Exited 1, (t ++ [EvStdout usage_text])%list).
Proof. reflexivity. Qed.

Lemma both_b_and_d_exits (t : trace) :
  both_b_and_d t =
  (Exited 1, (t ++ [EvStderr conflict_message; EvStdout usage_text])%list).
Proof.
  unfold both_b_and_d, bind, emit. rewrite usage_exits.
  rewrite <- app_assoc. reflexivity.
Qed.

(* ================================================================== *)
(** ** The descriptor comparison of the bus locator *)
(* ================================================================== *)

Lemma uchar_inj (x y : byte) : uchar x = uchar y -> x = y.
Proof.
  unfold uchar. intros H. apply N2Z.inj in H.
  pose proof (Byte.of_to_N x) as Hx. pose proof (Byte.of_to_N y) as Hy.
  rewrite H in Hx. congruence.
Qed.

Lemma memcmp_zero_iff (n : nat) :
  forall a b : list byte,
    (n <= List.length a)%nat -> (n <= List.length b)%nat ->
    (memcmp a b n = 0 <-> firstn n a = firstn n b).
Proof.
  induction n as [| n IH]; intros a b Ha Hb.
  - split; reflexivity.
  - destruct a as [| x a]; [cbn in Ha; lia |].
    destruct b as [| y b]; [cbn in Hb; lia |].
    cbn in Ha, Hb. cbn [memcmp firstn].
    destruct (Z.eqb_spec (uchar x) (uchar y)) as [Heq | Hne].
    + apply uchar_inj in Heq. subst y.
      rewrite (IH a b) by lia. split; intros H; [f_equal; exact H |].
      now inversion H.
    + split; intros H; [lia |].
      inversion H. subst. contradiction.
Qed.

Lemma list_byte_of_string_length (s : string) :
  List.length (list_byte_of_string s) = String.length s.
Proof.
  unfold list_byte_of_string. rewrite length_map.
  induction s as [| c s IH]; cbn; [reflexivity | now rewrite IH].
Qed.

(** What lines 60-61 compute when [read] was asked for [len + 2] bytes of
    a file holding [content]. *)
Lemma compare_name_spec (want content : list byte) :
  let got := firstn (Z.to_nat (Z.of_nat (List.length want) + 2)) content in
  let res := compare_name want (Z.of_nat (List.length got)) got in
  (res = 1 \/ res = 0) /\
  (res = 1 <-> content = want \/ content = (want ++ [x0a])%list).
Proof.
  intros got res. subst res. unfold compare_name.
  set (len := List.length want).
  assert (Hgot : List.length got = Nat.min (len + 2) (List.length content)).
  { subst got. rewrite length_firstn. f_equal. lia. }
  rewrite !Nat2Z.id.
  destruct (Z.eqb_spec (Z.of_nat (List.length got)) (Z.of_nat len)) as [E1 | N1].
  - (* the file holds exactly [len] bytes *)
    assert (Hlen : List.length content = len) by lia.
    assert (Hall : got = content).
    { subst got. apply firstn_all2. lia. }
    rewrite Hall. cbn [orb].
    pose proof (memcmp_zero_iff len want content ltac:(lia) ltac:(lia)) as Hm.
    rewrite (firstn_all want : firstn len want = want) in Hm.
    rewrite (firstn_all2 content (n := len)) in Hm by lia.
    destruct (Z.eqb_spec (memcmp want content len) 0) as [E | N].
    + split; [auto |]. split; [intros _; left; symmetry; tauto | auto].
    + split; [auto |]. split; [discriminate |].
      intros [H | H].
      * exfalso. apply N, Hm. now symmetry.
      * exfalso. rewrite H, length_app in Hlen. cbn in Hlen. lia.
  - cbn [orb].
    destruct (Z.eqb_spec (Z.of_nat (List.length got)) (Z.of_nat len + 1)) as [E2 | N2].
    + (* the file holds exactly [len + 1] bytes *)
      assert (Hlen : List.length content = S len) by lia.
      assert (Hall : got = content).
      { subst got. apply firstn_all2. lia. }
      rewrite Hall. cbn [andb].
      assert (Hsplit : content = (firstn len content ++ [nth len content x00])%list).
      { rewrite <- (firstn_skipn len content) at 1. f_equal.
        pose proof (length_skipn len content) as Hsk.
        destruct (skipn len content) as [| z [| z' tl]] eqn:Esk;
          cbn in Hsk; try lia.
        f_equal. rewrite <- (firstn_skipn len content) at 1.
        rewrite app_nth2 by (rewrite length_firstn; lia).
        rewrite length_firstn, Esk.
        replace (len - Nat.min len (List.length content))%nat with 0%nat by lia.
        reflexivity. }
      pose proof (memcmp_zero_iff len want content ltac:(lia) ltac:(lia)) as Hm.
      rewrite (firstn_all want : firstn len want = want) in Hm.
      destruct (Z.eqb_spec (uchar (nth len content x00)) 10) as [E10 | N10].
      * change 10 with (uchar x0a) in E10. apply uchar_inj in E10.
        destruct (Z.eqb_spec (memcmp want content len) 0) as [E | N].
        -- split; [auto |]. split; [intros _ | auto].
           right. rewrite Hsplit, E10. f_equal. symmetry. tauto.
        -- split; [auto |]. split; [discriminate |].
           intros [H | H].
           ++ exfalso. rewrite H in Hlen. lia.
           ++ exfalso. apply N, Hm. rewrite H. subst len.
              rewrite firstn_app, firstn_all, Nat.sub_diag. cbn.
              now rewrite app_nil_r.
      * split; [auto |]. split; [discriminate |].
        intros [H | H].
        -- exfalso. rewrite H in Hlen. lia.
        -- exfalso. apply N10. rewrite H. subst len.
           rewrite app_nth2 by lia. rewrite Nat.sub_diag. reflexivity.
    + split; [auto |]. split; [discriminate |].
      intros [H | H]; exfalso.
      * rewrite H in Hgot. fold len in Hgot. lia.
      * rewrite H, length_app in Hgot. cbn in Hgot. fold len in Hgot. lia.
Qed.

Lemma string_length_append (a b : string) :
  String.length (a ++ b) = (String.length a + String.length b)%nat.
Proof. induction a as [| c a IH]; cbn; [reflexivity | now rewrite IH]. Qed.

(** The three ways a call of [name_file_matches] can go: the [open]
    fails, the [read] fails, or the comparison is made and the descriptor
    closed. *)
Lemma name_file_matches_unfold (W : world) (dir subdir want : string) (t : trace) :
  let path := (dir ++ "/" ++ subdir ++ "/name")%string in
  let fd := os_open W t path O_RDONLY in
  let count := Z.of_nat (String.length want) + 2 in
  let t1 := (t ++ [EvOpen path O_RDONLY fd])%list in
  name_file_matches W dir subdir want t =
  if fd <? 0
  then (Exited 1, (t1 ++ [EvStderrErrno ("opening " ++ path)])%list)
  else match os_read W t1 fd with
       | None =>
           (Exited 1,
            (t1 ++ [EvRead fd count (-1);
                    EvStderrErrno ("reading " ++ path)])%list)
       | Some content =>
           let got := firstn (Z.to_nat count) content in
           (Done (compare_name (list_byte_of_string want)
                               (Z.of_nat (List.length got)) got),
            (t1 ++ [EvRead fd count (Z.of_nat (List.length got));
                    EvClose fd])%list)
       end.
Proof.
  intros path fd count t1.
  unfold name_file_matches. fold path.
  assert (Hpath : Z.ltb (Z.of_nat (String.length path)) 2 = false).
  { apply Z.ltb_ge. unfold path. rewrite !string_length_append.
    cbn [String.length]. lia. }
  unfold die_errno, bind, when, sys_open, sys_read, sys_close, emit, ret, exit.
  rewrite Hpath. fold fd. fold t1. fold count.
  destruct (Z.ltb_spec fd 0) as [Hneg | Hge]; [reflexivity |].
  destruct (os_read W t1 fd) as [content |].
  - cbv zeta.
    set (got := firstn (Z.to_nat count) content).
    destruct (Z.ltb_spec (Z.of_nat (List.length got)) 0) as [Hn | _]; [lia |].
    rewrite <- app_assoc. reflexivity.
  - cbn [Z.ltb Z.compare]. rewrite <- app_assoc. reflexivity.
Qed.

(** C7: when the descriptor file of a candidate can be opened and read,
    [name_file_matches] returns 1 if the file holds exactly the wanted
    name, or the wanted name followed by one newline, and 0 for every
    other content. *)
Theorem C7_name_file_matches_exact (W : world) (dir subdir want : string)
        (content : list byte) (t : trace) :
  let path := (dir ++ "/" ++ subdir ++ "/name")%string in
  let fd := os_open W t path O_RDONLY in
  0 <= fd ->
  os_read W (t ++ [EvOpen path O_RDONLY fd]) fd = Some content ->
  exists res t',
    name_file_matches W dir subdir want t = (Done res, t') /\
    (res = 1 \/ res = 0) /\
    (res = 1 <->
     content = list_byte_of_string want \/
     content = (list_byte_of_string want ++ [x0a])%list).
Proof.
  intros path fd Hfd Hread.
  unfold name_file_matches. fold path.
  assert (Hpath : Z.ltb (Z.of_nat (String.length path)) 2 = false).
  { apply Z.ltb_ge. unfold path. rewrite !string_length_append.
    cbn [String.length]. lia. }
  unfold bind, when, sys_open, sys_read, sys_close, emit, ret.
  rewrite Hpath. fold fd.
  destruct (Z.ltb_spec fd 0) as [Hneg | _]; [lia |].
  rewrite Hread.
  rewrite <- list_byte_of_string_length.
  set (got := firstn _ content).
  destruct (Z.ltb_spec (Z.of_nat (List.length got)) 0) as [Hneg | _]; [lia |].
  eexists _, _. split; [reflexivity |].
  apply compare_name_spec.
Qed.

(** The registry file of [i2c-1] holds [bcm.1] and a newline: it matches
    the name [bcm.1]. *)
Lemma C7_name_file_matches_exact_witness :
  exists res t',
    name_file_matches healthy "/sys/class/i2c-dev" "i2c-1" "bcm.1" [] =
      (Done res, t') /\
    (res = 1 \/ res = 0) /\
    (res = 1 <->
     list_byte_of_string ("bcm.1" ++ nl) = list_byte_of_string "bcm.1" \/
     list_byte_of_string ("bcm.1" ++ nl) =
       (list_byte_of_string "bcm.1" ++ [x0a])%list).
Proof.
  apply (C7_name_file_matches_exact healthy "/sys/class/i2c-dev" "i2c-1"
           "bcm.1" (list_byte_of_string ("bcm.1" ++ nl)) []).
  - vm_compute. discriminate.
  - reflexivity.
Defined.

Example name_file_matches_trailing_newline :
  name_file_matches healthy "/sys/class/i2c-dev" "i2c-1" "bcm.1" [] =
  (Done 1, [EvOpen "/sys/class/i2c-dev/i2c-1/name" O_RDONLY 3;
            EvRead 3 7 6; EvClose 3]).
Proof. vm_compute. reflexivity. Qed.

Example name_file_matches_other_bus :
  name_file_matches healthy "/sys/class/i2c-dev" "i2c-0" "bcm.1" [] =
  (Done 0, [EvOpen "/sys/class/i2c-dev/i2c-0/name" O_RDONLY 3;
            EvRead 3 7 6; EvClose 3]).
Proof. vm_compute. reflexivity. Qed.

Example open_i2c_bus_finds_second_bus :
  open_i2c_bus healthy "bcm.1" [] =
  (Done 3,
   [EvOpendir "/sys/class/i2c-dev" true;
    EvReaddir (Some "."%string); EvReaddir (Some ".."%string);
    EvReaddir (Some "i2c-0"%string);
    EvOpen "/sys/class/i2c-dev/i2c-0/name" O_RDONLY 3; EvRead 3 7 6; EvClose 3;
    EvReaddir (Some "i2c-1"%string);
    EvOpen "/sys/class/i2c-dev/i2c-1/name" O_RDONLY 3; EvRead 3 7 6; EvClose 3;
    EvOpen "/dev/i2c-1" O_RDWR 3; EvClosedir]).
Proof. vm_compute. reflexivity. Qed.

Example open_i2c_bus_unknown_bus :
  fst (open_i2c_bus healthy "bcm.2" []) = Exited 1.
Proof. vm_compute. reflexivity. Qed.

(* ================================================================== *)
(** ** The sensor transaction *)
(* ================================================================== *)

(** What [take_reading] does once the write did not fail. *)
Lemma take_reading_unfold (W : world) (fd : Z) (t : trace) :
  0 <= write_result W t fd ->
  take_reading W fd t =
  match os_read W (before_read W t fd) fd with
  | None =>
      (Exited 1,
       before_read W t fd ++ [EvRead fd 4 (-1); EvStderrErrno "reading from i2c"])
  | Some avail =>
      match avail with
      | b0 :: b1 :: b2 :: b3 :: _ =>
          (Done (decode (Frame b0 b1 b2 b3)),
           before_read W t fd ++ [EvRead fd 4 4])
      | _ =>
          (Exited 1,
           before_read W t fd
             ++ [EvRead fd 4 (Z.of_nat (List.length avail));
                 EvStderr (short_read_message (Z.of_nat (List.length avail)))])
      end
  end%list.
Proof.
  intros Hw.
  unfold take_reading, die_errno, before_read.
  unfold bind, when, sys_write, sys_read, usleep, emit, ret, exit.
  cbn [data0 List.length].
  change (Z.to_nat 4) with 4%nat.
  fold (write_result W t fd).
  destruct (Z.ltb_spec (write_result W t fd) 0) as [Hneg | _]; [lia |].
  rewrite <- !app_assoc. cbn [app].
  destruct (os_read W _ fd) as [avail |].
  - destruct avail as [| b0 [| b1 [| b2 [| b3 rest]]]];
      cbn [firstn List.length frame_store Z.of_nat Pos.of_succ_nat Pos.succ
           Z.ltb Z.compare Pos.compare Pos.compare_cont];
      rewrite <- ?app_assoc; reflexivity.
  - cbn [Z.ltb Z.compare]. rewrite <- ?app_assoc. reflexivity.
Qed.

(** A failed write is fatal. *)
Lemma take_reading_failed_write (W : world) (fd : Z) (t : trace) :
  write_result W t fd < 0 ->
  take_reading W fd t =
  (Exited 1,
   (t ++ [EvWrite fd [x00] (write_result W t fd);
          EvStderrErrno "writing to i2c"])%list).
Proof.
  intros Hw.
  unfold take_reading, die_errno.
  unfold bind, when, sys_write, emit, exit.
  cbn [data0 List.length]. fold (write_result W t fd).
  destruct (Z.ltb_spec (write_result W t fd) 0) as [_ | Hge]; [| lia].
  rewrite <- ?app_assoc. reflexivity.
Qed.

(** C6: when the 4-byte read delivers fewer than 4 bytes, the transaction
    prints the short-read message and exits with status 1 after that one
    read, without a reading, and so does the whole program, whatever
    options led to the polling loop.  A reading is produced only from a
    read that returned 4 bytes, and it is the decoding of these bytes.
    The condition is distinct from a failed read, which is reported
    through [die_errno]. *)
Theorem C6_short_read_is_fatal (W : world) (fd : Z) (t : trace) :
  (forall avail,
     0 <= write_result W t fd ->
     os_read W (before_read W t fd) fd = Some avail ->
     (List.length avail < 4)%nat ->
     let t_end :=
       (before_read W t fd
          ++ [EvRead fd 4 (Z.of_nat (List.length avail));
              EvStderr (short_read_message (Z.of_nat (List.length avail)))])%list in
     take_reading W fd t = (Exited 1, t_end) /\
     forall fuel opts extra t0 v,
       startup W opts extra t0 = (Done v, t) -> v_fd v = fd ->
       main W (S fuel) opts extra t0 = (Exited 1, t_end)) /\
  (forall r t',
     take_reading W fd t = (Done r, t') ->
     exists b0 b1 b2 b3 rest,
       os_read W (before_read W t fd) fd = Some (b0 :: b1 :: b2 :: b3 :: rest) /\
       r = decode (Frame b0 b1 b2 b3) /\
       t' = (before_read W t fd ++ [EvRead fd 4 4])%list) /\
  (0 <= write_result W t fd ->
   os_read W (before_read W t fd) fd = None ->
   take_reading W fd t =
   (Exited 1,
    (before_read W t fd
       ++ [EvRead fd 4 (-1); EvStderrErrno "reading from i2c"])%list)).
Proof.
  split; [| split].
  - intros avail Hw Hread Hlen t_end.
    assert (Htake : take_reading W fd t = (Exited 1, t_end)).
    { rewrite take_reading_unfold by exact Hw. rewrite Hread.
      destruct avail as [| b0 [| b1 [| b2 [| b3 rest]]]];
        try reflexivity.
      cbn in Hlen. lia. }
    split; [exact Htake |].
    intros fuel opts extra t0 v Hstart Hfd.
    unfold main, bind. rewrite Hstart. cbn [poll]. unfold bind.
    rewrite Hfd, Htake. reflexivity.
  - intros r t' Hdone.
    assert (Hw : 0 <= write_result W t fd).
    { destruct (Z.lt_ge_cases (write_result W t fd) 0) as [Hneg | Hge]; [| lia].
      rewrite take_reading_failed_write in Hdone by exact Hneg.
      discriminate. }
    rewrite take_reading_unfold in Hdone by exact Hw.
    destruct (os_read W (before_read W t fd) fd) as [avail |]; [| discriminate].
    destruct avail as [| b0 [| b1 [| b2 [| b3 rest]]]]; try discriminate.
    inversion Hdone. subst. eauto 10.
  - intros Hw Hread.
    rewrite take_reading_unfold by exact Hw. rewrite Hread. reflexivity.
Qed.

(** The sensor delivers two bytes: [short read (2 bytes)], exit status 1. *)
Lemma C6_short_read_is_fatal_witness :
  take_reading short_sensor 3
    [EvOpen "/dev/i2c-1" O_RDWR 3; EvIoctl 3 I2C_SLAVE 0x28 0] =
  (Exited 1,
   [EvOpen "/dev/i2c-1" O_RDWR 3; EvIoctl 3 I2C_SLAVE 0x28 0;
    EvWrite 3 [x00] 1; EvUsleep 60000; EvRead 3 4 2;
    EvStderr (short_read_message 2)]) /\
  main short_sensor 1 [("d"%char, "/dev/i2c-1"%string)] false [] =
  (Exited 1,
   [EvOpen "/dev/i2c-1" O_RDWR 3; EvIoctl 3 I2C_SLAVE 0x28 0;
    EvWrite 3 [x00] 1; EvUsleep 60000; EvRead 3 4 2;
    EvStderr (short_read_message 2)]).
Proof.
  destruct (proj1 (C6_short_read_is_fatal short_sensor 3
                     [EvOpen "/dev/i2c-1" O_RDWR 3; EvIoctl 3 I2C_SLAVE 0x28 0])
                  [x1f; xff])
    as [Htake Hmain].
  - vm_compute. discriminate.
  - reflexivity.
  - cbn. lia.
  - split.
    + exact Htake.
    + apply (Hmain 0%nat [("d"%char, "/dev/i2c-1"%string)] false []
                   (Vars 3 0 1 1 0x28)); reflexivity.
Defined.

(** C5 (evaluation at the failing input): the bus takes 0 of the 1 byte
    written.  [take_reading] does not notice: it sleeps, reads and returns
    a reading, and the program prints it and ends with status 0. *)
Theorem C5_short_write_goes_unnoticed :
  write_result stalled_write [EvOpen "/dev/i2c-1" O_RDWR 3] 3 = 0 /\
  take_reading stalled_write 3 [EvOpen "/dev/i2c-1" O_RDWR 3] =
  (Done (decode (Frame x1f xff x66 x64)),
   [EvOpen "/dev/i2c-1" O_RDWR 3;
    EvWrite 3 [x00] 0; EvUsleep 60000; EvRead 3 4 4]) /\
  main stalled_write 1 [("d"%char, "/dev/i2c-1"%string)] false [] =
  (Done 0,
   [EvOpen "/dev/i2c-1" O_RDWR 3; EvIoctl 3 I2C_SLAVE 0x28 0;
    EvWrite 3 [x00] 0; EvUsleep 60000; EvRead 3 4 4;
    EvPrintFloat (humidity (decode (Frame x1f xff x66 x64)));
    EvStdout " ";
    EvPrintFloat (temperature (decode (Frame x1f xff x66 x64)));
    EvStdout nl; EvSleep 0; EvClose 3]).
Proof. vm_compute. repeat split. Qed.

(** A complete single-shot run: [hyt-read -b bcm.0] on the healthy
    machine prints humidity, a space, temperature and a newline, and
    returns 0. *)
Example main_single_shot :
  main healthy 1 [("b"%char, "bcm.0"%string)] false [] =
  (Done 0,
   [EvOpendir "/sys/class/i2c-dev" true;
    EvReaddir (Some "."%string); EvReaddir (Some ".."%string);
    EvReaddir (Some "i2c-0"%string);
    EvOpen "/sys/class/i2c-dev/i2c-0/name" O_RDONLY 3; EvRead 3 7 6; EvClose 3;
    EvOpen "/dev/i2c-0" O_RDWR 3; EvClosedir;
    EvIoctl 3 I2C_SLAVE 0x28 0;
    EvWrite 3 [x00] 1; EvUsleep 60000; EvRead 3 4 4;
    EvPrintFloat (humidity (decode (Frame x1f xff x66 x64)));
    EvStdout " ";
    EvPrintFloat (temperature (decode (Frame x1f xff x66 x64)));
    EvStdout nl; EvSleep 0; EvClose 3]).
Proof. vm_compute. reflexivity. Qed.

(** With a positive interval the loop goes on: two rounds of fuel are
    used up by two readings. *)
Example main_keeps_polling :
  fst (main healthy 2
         [("d"%char, "/dev/i2c-1"%string); ("i"%char, "5"%string);
          ("T"%char, EmptyString)] false []) = OutOfFuel.
Proof. vm_compute. reflexivity. Qed.

(** Neither [-b] nor [-d]: usage error. *)
Example main_without_device :
  main healthy 1 [("T"%char, EmptyString)] false [] =
  (Exited 1,
   [EvStderr ("Either the -d or -b option must be present" ++ nl ++ nl);
    EvStdout usage_text]).
Proof. vm_compute. reflexivity. Qed.

(* ================================================================== *)
(** ** Mutual exclusion of -b and -d *)
(* ================================================================== *)

Lemma open_i2c_dev_done (W : world) (file : string) (t t' : trace) (fd : Z) :
  open_i2c_dev W file t = (Done fd, t') ->
  t' = (t ++ [EvOpen ("/dev/" ++ file) O_RDWR fd])%list.
Proof.
  unfold open_i2c_dev. intros H.
  apply bind_inv_done in H. destruct H as (u & t1 & H1 & H).
  apply when_inv_done in H1. destruct H1 as [[_ ->] | [_ H1]].
  2:{ unfold die_alloc, bind, emit, exit in H1. discriminate. }
  apply bind_inv_done in H. destruct H as (fd' & t2 & H2 & H).
  unfold sys_open in H2. inversion H2. subst fd' t2. clear H2.
  apply bind_inv_done in H. destruct H as (u' & t3 & H3 & H).
  apply when_inv_done in H3. destruct H3 as [[_ ->] | [_ H3]].
  2:{ exfalso. eapply die_errno_never_returns, H3. }
  unfold ret in H. inversion H. reflexivity.
Qed.

Lemma scan_entries_done (W : world) (dir name : string) (fails : bool) :
  forall (entries : list string) (t t' : trace) (fd : Z),
    scan_entries W dir name entries fails t = (Done fd, t') ->
    exists path, In (EvOpen path O_RDWR fd) t'.
Proof.
  induction entries as [| d_name rest IH]; intros t t' fd H.
  - cbn [scan_entries] in H.
    unfold bind, emit, when, exit in H.
    destruct fails; cbn in H; discriminate.
  - cbn [scan_entries] in H.
    apply bind_inv_done in H. destruct H as (u & t1 & _ & H).
    destruct (hidden d_name); [eapply IH, H |].
    apply bind_inv_done in H. destruct H as (m & t2 & _ & H).
    destruct (negb (Z.eqb m 0)); [| eapply IH, H].
    apply bind_inv_done in H. destruct H as (fd' & t3 & Hdev & H).
    apply open_i2c_dev_done in Hdev.
    unfold bind, emit, ret in H. inversion H. subst.
    eexists. apply in_or_app. left. apply in_or_app. right. left. reflexivity.
Qed.

Lemma open_i2c_bus_done (W : world) (name : string) (t t' : trace) (fd : Z) :
  open_i2c_bus W name t = (Done fd, t') ->
  exists path, In (EvOpen path O_RDWR fd) t'.
Proof.
  unfold open_i2c_bus. intros H.
  apply bind_inv_done in H. destruct H as (dp & t1 & _ & H).
  destruct dp as [[entries fails] |].
  - eapply scan_entries_done, H.
  - unfold die_errno, bind, emit, exit in H. discriminate.
Qed.

Lemma parse_i2c_slave_address_done (s : string) (t t' : trace) (n : Z) :
  parse_i2c_slave_address s t = (Done n, t') -> t' = t.
Proof.
  unfold parse_i2c_slave_address.
  destruct (strtol s 0) as [v endptr].
  unfold bind, when, emit, exit, ret.
  destruct (String.eqb endptr s || negb (String.eqb endptr EmptyString)); [discriminate |].
  destruct (Z.ltb v 3 || Z.gtb v 119); [discriminate |].
  intros H. inversion H. reflexivity.
Qed.

Lemma option_case_cases (W : world) (c : ascii) (optarg : string) (v : vars) :
  c = "H"%char \/ c = "T"%char \/ c = "b"%char \/ c = "d"%char \/
  c = "i"%char \/ c = "a"%char \/ c = "h"%char \/
  option_case W c optarg v = ret v.
Proof.
  destruct c as [[] [] [] [] [] [] [] []]; cbn; auto 10.
Qed.

Lemma option_case_fd_opened (W : world) (c : ascii) (optarg : string)
      (v v' : vars) (t t' : trace) :
  fd_opened v t ->
  option_case W c optarg v t = (Done v', t') ->
  fd_opened v' t'.
Proof.
  intros Hinv H.
  destruct (option_case_cases W c optarg v)
    as [-> | [-> | [-> | [-> | [-> | [-> | [-> | Hdef]]]]]]].
  - inversion H. subst. exact Hinv.
  - inversion H. subst. exact Hinv.
  - cbn [option_case] in H.
    apply bind_inv_done in H. destruct H as (u & t1 & _ & H).
    apply bind_inv_done in H. destruct H as (fd & t2 & Hbus & H).
    inversion H. subst. right. cbn [v_fd].
    eapply open_i2c_bus_done, Hbus.
  - cbn [option_case] in H.
    apply bind_inv_done in H. destruct H as (u & t1 & Hw & H).
    apply when_inv_done in Hw. destruct Hw as [[_ ->] | [_ Hw]].
    2:{ rewrite both_b_and_d_exits in Hw. discriminate. }
    apply bind_inv_done in H. destruct H as (fd & t2 & Hopen & H).
    unfold sys_open in Hopen. inversion Hopen. subst fd t2. clear Hopen.
    apply bind_inv_done in H. destruct H as (u' & t3 & Hw & H).
    apply when_inv_done in Hw. destruct Hw as [[_ ->] | [_ Hw]].
    2:{ exfalso. eapply die_errno_never_returns, Hw. }
    inversion H. subst. right. cbn [v_fd].
    eexists. apply in_or_app. right. left. reflexivity.
  - inversion H. subst. exact Hinv.
  - cbn [option_case] in H.
    apply bind_inv_done in H. destruct H as (n & t1 & Hp & H).
    apply parse_i2c_slave_address_done in Hp. subst t1.
    inversion H. subst. exact Hinv.
  - cbn [option_case] in H. unfold bind in H. rewrite usage_exits in H.
    discriminate.
  - rewrite Hdef in H. inversion H. subst. exact Hinv.
Qed.

Lemma getopt_loop_fd_opened (W : world) :
  forall (opts : list (ascii * string)) (v v' : vars) (t t' : trace),
    fd_opened v t ->
    getopt_loop W opts v t = (Done v', t') ->
    fd_opened v' t'.
Proof.
  induction opts as [| [c optarg] rest IH]; intros v v' t t' Hinv H.
  - inversion H. subst. exact Hinv.
  - cbn [getopt_loop] in H.
    apply bind_inv_done in H. destruct H as (v1 & t1 & H1 & H).
    eapply IH; [| exact H].
    eapply option_case_fd_opened; eassumption.
Qed.

Lemma getopt_loop_app (W : world) :
  forall (pre rest : list (ascii * string)) (v : vars) (t : trace),
    getopt_loop W (pre ++ rest) v t =
    bind (getopt_loop W pre v) (getopt_loop W rest) t.
Proof.
  induction pre as [| [c optarg] pre IH]; intros rest v t.
  - reflexivity.
  - cbn [app getopt_loop]. unfold bind.
    destruct (option_case W c optarg v t) as [[v1 | s |] t1].
    + rewrite IH. unfold bind. reflexivity.
    + reflexivity.
    + reflexivity.
Qed.

Lemma option_case_conflict (W : world) (c : ascii) (optarg : string)
      (v : vars) (t : trace) :
  c = "b"%char \/ c = "d"%char ->
  v_fd v <> 0 ->
  option_case W c optarg v t =
  (Exited 1, (t ++ [EvStderr conflict_message; EvStdout usage_text])%list).
Proof.
  intros Hc Hfd.
  assert (Hne : negb (Z.eqb (v_fd v) 0) = true).
  { destruct (Z.eqb_spec (v_fd v) 0); [contradiction | reflexivity]. }
  destruct Hc as [-> | ->]; cbn [option_case];
    rewrite Hne; unfold when;
    apply bind_exited, both_b_and_d_exits.
Qed.

(** *** What option processing leaves in the history *)

Lemma lookup_only_weaken (prev : option Z) (l : trace) :
  lookup_only None l = true -> lookup_only prev l = true.
Proof.
  destruct l as [| e l]; [reflexivity |].
  cbn [lookup_only]. destruct e; try exact (fun H => H). discriminate.
Qed.

Lemma lookup_only_app (a b : trace) :
  forall prev,
    lookup_only prev a = true -> lookup_only None b = true ->
    lookup_only prev (a ++ b) = true.
Proof.
  induction a as [| e a IH]; intros prev Ha Hb.
  - apply lookup_only_weaken, Hb.
  - cbn [app lookup_only] in *. apply andb_true_iff in Ha.
    destruct Ha as [He Ha]. rewrite He. cbn [andb]. apply IH; assumption.
Qed.

Lemma only_lookup_ret {A : Type} (a : A) : only_lookup (ret a).
Proof. intros t. exists []. split; [cbn; now rewrite app_nil_r | reflexivity]. Qed.

Lemma only_lookup_exit {A : Type} (s : Z) : only_lookup (@exit A s).
Proof. intros t. exists []. split; [cbn; now rewrite app_nil_r | reflexivity]. Qed.

Lemma only_lookup_emit (e : event) :
  lookup_only None [e] = true -> only_lookup (emit e).
Proof. intros He t. exists [e]. split; [reflexivity | exact He]. Qed.

Lemma only_lookup_bind {A B : Type} (m : M A) (k : A -> M B) :
  only_lookup m -> (forall a, only_lookup (k a)) -> only_lookup (bind m k).
Proof.
  intros Hm Hk t. unfold bind.
  destruct (Hm t) as (e1 & Hs1 & Hp1).
  destruct (m t) as [[a | s |] t1]; cbn [snd] in Hs1; subst t1.
  - destruct (Hk a (t ++ e1)%list) as (e2 & Hs2 & Hp2).
    exists (e1 ++ e2)%list. split.
    + rewrite Hs2, app_assoc. reflexivity.
    + apply lookup_only_app; assumption.
  - exists e1. auto.
  - exists e1. auto.
Qed.

Lemma only_lookup_when (c : bool) (m : M unit) :
  only_lookup m -> only_lookup (when c m).
Proof. intros Hm. destruct c; [exact Hm | apply only_lookup_ret]. Qed.

Lemma only_lookup_die_errno (msg : string) : only_lookup (die_errno msg).
Proof.
  apply only_lookup_bind; [apply only_lookup_emit; reflexivity |].
  intros _. apply only_lookup_exit.
Qed.

Lemma only_lookup_usage : only_lookup usage.
Proof.
  apply only_lookup_bind; [apply only_lookup_emit; reflexivity |].
  intros _. apply only_lookup_exit.
Qed.

Lemma only_lookup_name_file_matches (W : world) (dir subdir want : string) :
  only_lookup (name_file_matches W dir subdir want).
Proof.
  intros t. rewrite name_file_matches_unfold. cbv zeta.
  destruct (Z.ltb _ 0).
  - cbn [snd]. rewrite <- app_assoc. eexists. split; [reflexivity |]. reflexivity.
  - destruct (os_read W _ _); cbn [snd]; rewrite <- app_assoc;
      (eexists; split; [reflexivity |]);
      cbn [app lookup_only]; rewrite Z.eqb_refl; reflexivity.
Qed.

Lemma only_lookup_open_i2c_dev (W : world) (file : string) :
  only_lookup (open_i2c_dev W file).
Proof.
  unfold open_i2c_dev, die_alloc. cbv zeta.
  apply only_lookup_bind.
  { apply only_lookup_when, only_lookup_bind;
      [apply only_lookup_emit; reflexivity | intros _; apply only_lookup_exit]. }
  intros _. apply only_lookup_bind.
  { intros t. eexists [_]. split; reflexivity. }
  intros fd. apply only_lookup_bind;
    [apply only_lookup_when, only_lookup_die_errno | intros _; apply only_lookup_ret].
Qed.

Lemma only_lookup_scan_entries (W : world) (dir name : string) (fails : bool)
      (entries : list string) :
  only_lookup (scan_entries W dir name entries fails).
Proof.
  induction entries as [| d rest IH]; cbn [scan_entries].
  - apply only_lookup_bind; [apply only_lookup_emit; reflexivity |]. intros _.
    apply only_lookup_bind; [apply only_lookup_when, only_lookup_die_errno |].
    intros _.
    apply only_lookup_bind; [apply only_lookup_emit; reflexivity |]. intros _.
    apply only_lookup_exit.
  - apply only_lookup_bind; [apply only_lookup_emit; reflexivity |]. intros _.
    destruct (hidden d); [exact IH |].
    apply only_lookup_bind; [apply only_lookup_name_file_matches |]. intros m.
    destruct (negb (Z.eqb m 0)); [| exact IH].
    apply only_lookup_bind; [apply only_lookup_open_i2c_dev |]. intros fd.
    apply only_lookup_bind; [apply only_lookup_emit; reflexivity |]. intros _.
    apply only_lookup_ret.
Qed.

Lemma only_lookup_open_i2c_bus (W : world) (name : string) :
  only_lookup (open_i2c_bus W name).
Proof.
  unfold open_i2c_bus. cbv zeta.
  apply only_lookup_bind.
  { intros t. unfold sys_opendir.
    destruct (os_opendir W t _); (eexists [_]; split; reflexivity). }
  intros [[entries fails] |].
  - apply only_lookup_scan_entries.
  - apply only_lookup_bind; [apply only_lookup_die_errno |]. intros _.
    apply only_lookup_exit.
Qed.

Lemma only_lookup_parse (s : string) : only_lookup (parse_i2c_slave_address s).
Proof.
  assert (Hreject : forall b msg,
             only_lookup (when b (emit (EvStderr msg) ;; exit 1))).
  { intros b msg. apply only_lookup_when, only_lookup_bind;
      [apply only_lookup_emit; reflexivity | intros _; apply only_lookup_exit]. }
  unfold parse_i2c_slave_address. destruct (strtol s 0) as [n endptr].
  apply only_lookup_bind; [apply Hreject |]. intros _.
  apply only_lookup_bind; [apply Hreject |]. intros _.
  apply only_lookup_ret.
Qed.

Lemma only_lookup_option_case (W : world) (c : ascii) (optarg : string) (v : vars) :
  only_lookup (option_case W c optarg v).
Proof.
  assert (Hconflict : forall b, only_lookup (when b both_b_and_d)).
  { intros b. apply only_lookup_when. unfold both_b_and_d.
    apply only_lookup_bind; [apply only_lookup_emit; reflexivity |].
    intros _. apply only_lookup_usage. }
  destruct (option_case_cases W c optarg v)
    as [-> | [-> | [-> | [-> | [-> | [-> | [-> | Hdef]]]]]]];
    [ | | | | | | | rewrite Hdef ]; cbn [option_case].
  - apply only_lookup_ret.
  - apply only_lookup_ret.
  - apply only_lookup_bind; [apply Hconflict |]. intros _.
    apply only_lookup_bind; [apply only_lookup_open_i2c_bus |]. intros fd.
    apply only_lookup_ret.
  - apply only_lookup_bind; [apply Hconflict |]. intros _.
    apply only_lookup_bind.
    { intros t. eexists [_]. split; reflexivity. }
    intros fd. apply only_lookup_bind;
      [apply only_lookup_when, only_lookup_die_errno | intros _; apply only_lookup_ret].
  - apply only_lookup_ret.
  - apply only_lookup_bind; [apply only_lookup_parse |]. intros slave.
    apply only_lookup_ret.
  - apply only_lookup_bind; [apply only_lookup_usage |]. intros _.
    apply only_lookup_ret.
  - apply only_lookup_ret.
Qed.

Lemma only_lookup_getopt_loop (W : world) (opts : list (ascii * string)) :
  forall v, only_lookup (getopt_loop W opts v).
Proof.
  induction opts as [| [c optarg] rest IH]; intros v; cbn [getopt_loop].
  - apply only_lookup_ret.
  - apply only_lookup_bind; [apply only_lookup_option_case | exact IH].
Qed.

(** C9 (amended): the options are acted on in order.  When a [-b] or
    [-d] is reached after the earlier options ran without a fatal error
    and left a non-zero descriptor, the program prints the conflict
    message and the usage text and exits with status 1 at once: nothing
    is opened for this option and nothing follows.  The descriptor it
    holds was returned by an [open] of a device node that is already in
    the history, and that history holds no [ioctl], no [write], no sleep
    and no printed reading, and every [read] in it directly follows the
    read-only [open] that returned its descriptor (the name-file reads
    of the bus lookup; a device node is opened read-write). *)
Theorem C9_conflict_after_first_open (W : world) (fuel : nat) (extra : bool)
        (pre post : list (ascii * string)) (c : ascii) (optarg : string)
        (v : vars) (t : trace) :
  c = "b"%char \/ c = "d"%char ->
  getopt_loop W pre (Vars 0 0 0 0 0x28) [] = (Done v, t) ->
  v_fd v <> 0 ->
  main W fuel (pre ++ (c, optarg) :: post) extra [] =
    (Exited 1, (t ++ [EvStderr conflict_message; EvStdout usage_text])%list) /\
  (exists path, In (EvOpen path O_RDWR (v_fd v)) t) /\
  lookup_only None t = true.
Proof.
  intros Hc Hpre Hfd. split; [| split].
  - unfold main. apply bind_exited.
    unfold startup. apply bind_exited.
    rewrite getopt_loop_app. rewrite (bind_done _ _ _ _ _ Hpre).
    cbn [getopt_loop]. apply bind_exited.
    apply option_case_conflict; assumption.
  - assert (Hinit : fd_opened (Vars 0 0 0 0 0x28) []) by (left; reflexivity).
    destruct (getopt_loop_fd_opened W pre _ _ _ _ Hinit Hpre)
      as [H0 | Hopen]; [contradiction | exact Hopen].
  - destruct (only_lookup_getopt_loop W pre (Vars 0 0 0 0 0x28) [])
      as (evs & Hs & Hq).
    rewrite Hpre in Hs. cbn [snd app] in Hs. subst evs. exact Hq.
Qed.

Lemma C9_conflict_after_first_open_witness :
  main healthy 1
       [("b"%char, "bcm.1"%string); ("d"%char, "/dev/i2c-0"%string)] false [] =
    (Exited 1,
     ([EvOpendir "/sys/class/i2c-dev" true;
       EvReaddir (Some "."%string); EvReaddir (Some ".."%string);
       EvReaddir (Some "i2c-0"%string);
       EvOpen "/sys/class/i2c-dev/i2c-0/name" O_RDONLY 3; EvRead 3 7 6;
       EvClose 3;
       EvReaddir (Some "i2c-1"%string);
       EvOpen "/sys/class/i2c-dev/i2c-1/name" O_RDONLY 3; EvRead 3 7 6;
       EvClose 3;
       EvOpen "/dev/i2c-1" O_RDWR 3; EvClosedir]
        ++ [EvStderr conflict_message; EvStdout usage_text])%list) /\
  (exists path,
      In (EvOpen path O_RDWR 3)
         [EvOpendir "/sys/class/i2c-dev" true;
          EvReaddir (Some "."%string); EvReaddir (Some ".."%string);
          EvReaddir (Some "i2c-0"%string);
          EvOpen "/sys/class/i2c-dev/i2c-0/name" O_RDONLY 3; EvRead 3 7 6;
          EvClose 3;
          EvReaddir (Some "i2c-1"%string);
          EvOpen "/sys/class/i2c-dev/i2c-1/name" O_RDONLY 3; EvRead 3 7 6;
          EvClose 3;
          EvOpen "/dev/i2c-1" O_RDWR 3; EvClosedir]) /\
  lookup_only None
    [EvOpendir "/sys/class/i2c-dev" true;
     EvReaddir (Some "."%string); EvReaddir (Some ".."%string);
     EvReaddir (Some "i2c-0"%string);
     EvOpen "/sys/class/i2c-dev/i2c-0/name" O_RDONLY 3; EvRead 3 7 6;
     EvClose 3;
     EvReaddir (Some "i2c-1"%string);
     EvOpen "/sys/class/i2c-dev/i2c-1/name" O_RDONLY 3; EvRead 3 7 6;
     EvClose 3;
     EvOpen "/dev/i2c-1" O_RDWR 3; EvClosedir] = true.
Proof.
  apply (C9_conflict_after_first_open healthy 1 false
           [("b"%char, "bcm.1"%string)] [] "d"%char "/dev/i2c-0"%string
           (Vars 3 0 0 0 0x28)).
  - right. reflexivity.
  - vm_compute. reflexivity.
  - cbn. lia.
Defined.

(** C9 (as stated) fails on [-d /dev/i2c-1 -b bcm.1]: the conflict is
    reported, but only after [/dev/i2c-1] was opened. *)
Lemma C9_counterexample :
  ~ C9_claim healthy [("d"%char, "/dev/i2c-1"%string); ("b"%char, "bcm.1"%string)].
Proof.
  intros Hclaim.
  destruct (Hclaim (ex_intro _ "bcm.1"%string (or_intror (or_introl eq_refl)))
                   (ex_intro _ "/dev/i2c-1"%string (or_introl eq_refl))
                   1%nat false)
    as (t & Hrun & Hquiet).
  assert (Hreal :
            main healthy 1
                 [("d"%char, "/dev/i2c-1"%string); ("b"%char, "bcm.1"%string)]
                 false [] =
            (Exited 1,
             ([EvOpen "/dev/i2c-1" O_RDWR 3]
                ++ [EvStderr conflict_message; EvStdout usage_text])%list))
    by (vm_compute; reflexivity).
  rewrite Hreal in Hrun. injection Hrun as Htr.
  apply (app_inv_tail [EvStderr conflict_message; EvStdout usage_text]
                      [EvOpen "/dev/i2c-1" O_RDWR 3] t) in Htr.
  subst t.
  cbn in Hquiet. discriminate.
Qed.

(** The other order, [-b bcm.1 -d /dev/i2c-0]: the registry is scanned
    and [/dev/i2c-1] opened before the conflict is reported. *)
Example conflict_after_bus_lookup :
  main healthy 1
       [("b"%char, "bcm.1"%string); ("d"%char, "/dev/i2c-0"%string)] false [] =
  (Exited 1,
   [EvOpendir "/sys/class/i2c-dev" true;
    EvReaddir (Some "."%string); EvReaddir (Some ".."%string);
    EvReaddir (Some "i2c-0"%string);
    EvOpen "/sys/class/i2c-dev/i2c-0/name" O_RDONLY 3; EvRead 3 7 6; EvClose 3;
    EvReaddir (Some "i2c-1"%string);
    EvOpen "/sys/class/i2c-dev/i2c-1/name" O_RDONLY 3; EvRead 3 7 6; EvClose 3;
    EvOpen "/dev/i2c-1" O_RDWR 3; EvClosedir;
    EvStderr conflict_message; EvStdout usage_text]).
Proof. vm_compute. reflexivity. Qed.

(* ================================================================== *)
(** ** The slave address *)
(* ================================================================== *)

Lemma digit_in_value (base : Z) (c : ascii) (d : Z) :
  digit_in base c = Some d -> digit_value c = d /\ 0 <= d < base.
Proof.
  unfold digit_in, digit_value, digit_of.
  set (n := Z.of_nat (nat_of_ascii c)).
  assert (0 <= n) by (subst n; lia).
  destruct (Z.leb_spec 48 n), (Z.leb_spec n 57); cbn [andb];
    [ destruct (Z.ltb_spec (n - 48) base); intros E; inversion E; lia | | | ];
    (destruct (Z.leb_spec 97 n), (Z.leb_spec n 122); cbn [andb];
     [ destruct (Z.ltb_spec (n - 97 + 10) base); intros E; inversion E; lia | | | ];
     (destruct (Z.leb_spec 65 n), (Z.leb_spec n 90); cbn [andb];
      [ destruct (Z.ltb_spec (n - 65 + 10) base); intros E; inversion E; lia
      | discriminate | discriminate | discriminate ])).
Qed.

Lemma digit_code (base : Z) (c : ascii) (d : Z) :
  digit_in base c = Some d -> 48 <= Z.of_nat (nat_of_ascii c).
Proof.
  unfold digit_in, digit_of.
  set (n := Z.of_nat (nat_of_ascii c)).
  destruct (Z.leb_spec 48 n); [lia |]. cbn [andb].
  destruct (Z.leb_spec 97 n); [lia |]. cbn [andb].
  destruct (Z.leb_spec 65 n); [lia |]. cbn [andb]. discriminate.
Qed.

Lemma digit_not_space (base : Z) (c : ascii) (d : Z) :
  digit_in base c = Some d -> isspace c = false.
Proof.
  intros H. apply digit_code in H. unfold isspace.
  destruct (Z.eqb_spec (Z.of_nat (nat_of_ascii c)) 32); [lia |].
  destruct (Z.leb_spec (Z.of_nat (nat_of_ascii c)) 13); [lia |].
  rewrite Bool.andb_false_r. reflexivity.
Qed.

Lemma digit_not_sign (base : Z) (c : ascii) (d : Z) :
  digit_in base c = Some d ->
  Ascii.eqb c "-" = false /\ Ascii.eqb c "+" = false.
Proof.
  intros H. apply digit_code in H.
  split.
  - destruct (Ascii.eqb_spec c "-") as [-> | _]; [cbn in H; lia | reflexivity].
  - destruct (Ascii.eqb_spec c "+") as [-> | _]; [cbn in H; lia | reflexivity].
Qed.

Lemma skip_spaces_app (ws r : string) :
  spaces_only ws = true -> skip_spaces (ws ++ r) = skip_spaces r.
Proof.
  induction ws as [| c ws IH]; cbn; [reflexivity |].
  intros H. apply andb_true_iff in H. destruct H as [Hc Hws].
  rewrite Hc. apply IH, Hws.
Qed.

Lemma skip_spaces_split (s : string) :
  exists ws, s = (ws ++ skip_spaces s)%string /\ spaces_only ws = true.
Proof.
  induction s as [| c s (ws & Hs & Hws)].
  - exists EmptyString. split; reflexivity.
  - cbn [skip_spaces]. destruct (isspace c) eqn:Hc.
    + exists (String c ws). cbn. rewrite Hc, Hws. split; [f_equal; exact Hs | reflexivity].
    + exists EmptyString. split; reflexivity.
Qed.

Lemma scan_digits_all (base : Z) :
  forall (s : string) (acc : Z),
    digits_only base s = true ->
    scan_digits base acc s = (horner base acc s, EmptyString).
Proof.
  induction s as [| c s IH]; intros acc H; cbn in *; [reflexivity |].
  destruct (digit_in base c) as [d |] eqn:Hd; [| discriminate].
  apply digit_in_value in Hd. destruct Hd as [-> _].
  apply IH, H.
Qed.

Lemma scan_digits_exhausted (base : Z) :
  forall (s : string) (acc v : Z),
    scan_digits base acc s = (v, EmptyString) ->
    digits_only base s = true /\ v = horner base acc s.
Proof.
  induction s as [| c s IH]; intros acc v H; cbn in *.
  - inversion H. auto.
  - destruct (digit_in base c) as [d |] eqn:Hd; [| discriminate].
    apply digit_in_value in Hd. destruct Hd as [-> _].
    apply IH, H.
Qed.

Lemma horner_nonneg (base : Z) :
  0 <= base ->
  forall (s : string) (acc : Z), 0 <= acc -> 0 <= horner base acc s.
Proof.
  intros Hb. induction s as [| c s IH]; intros acc Hacc; cbn; [exact Hacc |].
  apply IH. unfold digit_value, digit_of.
  set (n := Z.of_nat (nat_of_ascii c)).
  destruct (Z.leb_spec 48 n), (Z.leb_spec n 57); cbn [andb]; try nia;
    destruct (Z.leb_spec 97 n), (Z.leb_spec n 122); cbn [andb]; try nia;
    destruct (Z.leb_spec 65 n), (Z.leb_spec n 90); cbn [andb]; nia.
Qed.

Lemma digits_only_head (base : Z) (c : ascii) (s : string) :
  digits_only base (String c s) = true ->
  (exists d, digit_in base c = Some d) /\ digits_only base s = true.
Proof.
  cbn. destruct (digit_in base c) as [d |]; [eauto | discriminate].
Qed.

Lemma starts_with_digit_head (base : Z) (c : ascii) (s : string) :
  digits_only base (String c s) = true ->
  starts_with_digit base (String c s) = true.
Proof.
  intros H. apply digits_only_head in H. destruct H as [[d Hd] _].
  cbn. rewrite Hd. reflexivity.
Qed.

Lemma octal_digit_not_x (x : ascii) (d : Z) :
  digit_in 8 x = Some d -> is_x x = false.
Proof.
  intros H. unfold is_x.
  destruct (Ascii.eqb_spec x "x") as [-> | _]; [vm_compute in H; discriminate |].
  destruct (Ascii.eqb_spec x "X") as [-> | _]; [vm_compute in H; discriminate |].
  reflexivity.
Qed.

(** What [select_base] does on a literal: it finds the base and the
    digits, all of which [scan_digits] will consume. *)
Lemma select_base_literal (body : string) (n : Z) :
  c_literal body n ->
  exists b s3,
    select_base 0 body = (b, s3) /\
    starts_with_digit b s3 = true /\
    digits_only b s3 = true /\
    horner b 0 s3 = n.
Proof.
  intros [c s Hc Hd | s Hd | x c s Hx Hd].
  - exists 10, (String c s). cbn [select_base]. rewrite Hc.
    split; [reflexivity |]. split; [apply starts_with_digit_head, Hd |].
    split; [exact Hd | reflexivity].
  - exists 8, (String "0" s).
    assert (Hsel : select_base 0 (String "0" s) = (8, String "0" s)).
    { cbn [select_base]. rewrite Ascii.eqb_refl.
      destruct s as [| x r]; [reflexivity |].
      apply digits_only_head in Hd. destruct Hd as [[d Hx] _].
      rewrite (octal_digit_not_x _ _ Hx). rewrite Bool.andb_false_r.
      reflexivity. }
    split; [exact Hsel |]. split; [reflexivity |].
    split; [| reflexivity].
    change (digits_only 8 (String "0" s)) with (digits_only 8 s). exact Hd.
  - exists 16, (String c s). cbn [select_base]. rewrite Ascii.eqb_refl.
    rewrite Hx, (starts_with_digit_head _ _ _ Hd). cbn [Z.eqb orb andb].
    split; [reflexivity |]. split; [reflexivity |].
    split; [exact Hd | reflexivity].
Qed.

(** Conversely, when [select_base] leaves a string of digits, the whole
    was a literal. *)
Lemma select_base_sound (s2 s3 : string) (b : Z) :
  select_base 0 s2 = (b, s3) ->
  starts_with_digit b s3 = true ->
  digits_only b s3 = true ->
  c_literal s2 (horner b 0 s3).
Proof.
  destruct s2 as [| c r]; cbn [select_base Z.eqb orb].
  - intros H. inversion H. subst. discriminate.
  - destruct (Ascii.eqb_spec c "0") as [-> | Hc].
    + destruct r as [| x r'].
      * intros H _ _. inversion H. subst.
        apply (literal_octal EmptyString). reflexivity.
      * cbn [andb].
        destruct (is_x x && starts_with_digit 16 r') eqn:Hx.
        -- intros H Hs Hd. inversion H. subst.
           apply andb_true_iff in Hx. destruct Hx as [Hx _].
           destruct s3 as [| c' s']; [discriminate |].
           apply literal_hex; assumption.
        -- intros H _ Hd. inversion H. subst.
           apply digits_only_head in Hd. destruct Hd as [_ Hd].
           apply (literal_octal (String x r')). exact Hd.
    + intros H _ Hd. inversion H. subst.
      apply literal_decimal; [| exact Hd].
      destruct (Ascii.eqb_spec c "0"); [contradiction | reflexivity].
Qed.

Lemma strip_sign_cases (s1 : string) :
  (exists r, s1 = String "-" r /\ strip_sign s1 = (true, r)) \/
  (exists r, s1 = String "+" r /\ strip_sign s1 = (false, r)) \/
  strip_sign s1 = (false, s1).
Proof.
  destruct s1 as [| c r]; [right; right; reflexivity |].
  cbn [strip_sign].
  destruct (Ascii.eqb_spec c "-") as [-> | _]; [left; eauto |].
  destruct (Ascii.eqb_spec c "+") as [-> | _]; [right; left; eauto |].
  right; right; reflexivity.
Qed.

Lemma clamp_long_in_range (v : Z) :
  0x03 <= clamp_long v <= 0x77 -> clamp_long v = v.
Proof.
  unfold clamp_long, LONG_MAX, LONG_MIN.
  change (2 ^ 63) with 9223372036854775808. lia.
Qed.

Lemma string_app_nonempty (a b : string) :
  b <> EmptyString -> (a ++ b)%string <> EmptyString.
Proof. destruct a; cbn; [auto | discriminate]. Qed.

(** [strtol] on an accepted string converts all of it. *)
Lemma strtol_accepted (s : string) (n : Z) :
  accepted_address s n -> strtol s 0 = (n, EmptyString) /\ s <> EmptyString.
Proof.
  intros (ws & sign & body & Hs & Hws & Hsign & Hlit & Hrange).
  destruct (select_base_literal body n Hlit) as (b & s3 & Hsel & Hst & Hd & Hv).
  assert (Hbody : exists c r d, body = String c r /\ digit_in 10 c = Some d
                                \/ body = String c r /\ digit_in 8 c = Some d).
  { destruct Hlit as [c r Hc Hd' | r Hd' | x c r Hx Hd'].
    - apply digits_only_head in Hd'. destruct Hd' as [[d Hd'] _]. eauto 10.
    - exists "0"%char, r, 0. right. split; reflexivity.
    - exists "0"%char, (String x (String c r)), 0. right. split; reflexivity. }
  destruct Hbody as (c & r & d & Hbody).
  assert (Hc : body = String c r /\ isspace c = false /\
               Ascii.eqb c "-" = false /\ Ascii.eqb c "+" = false).
  { destruct Hbody as [[E Hdig] | [E Hdig]]; (split; [exact E |]);
      (split; [eapply digit_not_space, Hdig | eapply digit_not_sign, Hdig]). }
  destruct Hc as (Ebody & Hsp & Hminus & Hplus).
  assert (Hstrip : strip_sign (skip_spaces s) = (false, body)).
  { rewrite Hs, skip_spaces_app by exact Hws.
    destruct Hsign as [-> | ->]; cbn [String.append].
    - rewrite Ebody. cbn [skip_spaces strip_sign]. rewrite Hsp.
      cbn [strip_sign]. rewrite Hminus, Hplus. reflexivity.
    - reflexivity. }
  split.
  - unfold strtol. rewrite Hstrip, Hsel, Hst.
    rewrite (scan_digits_all b s3 0 Hd), Hv.
    f_equal. unfold clamp_long, LONG_MAX, LONG_MIN.
    change (2 ^ 63) with 9223372036854775808. lia.
  - rewrite Hs. apply string_app_nonempty, string_app_nonempty.
    rewrite Ebody. discriminate.
Qed.

(** When [strtol] converts a whole non-empty string to a value in the
    legal range, the string was an accepted address. *)
Lemma strtol_sound (s : string) (n : Z) :
  strtol s 0 = (n, EmptyString) ->
  s <> EmptyString ->
  0x03 <= n <= 0x77 ->
  accepted_address s n.
Proof.
  intros Hstr Hne Hrange.
  destruct (skip_spaces_split s) as (ws & Hs & Hws).
  unfold strtol in Hstr.
  destruct (strip_sign (skip_spaces s)) as [neg s2] eqn:Hstrip.
  destruct (select_base 0 s2) as [b s3] eqn:Hsel.
  destruct (starts_with_digit b s3) eqn:Hst.
  2:{ inversion Hstr. subst. contradiction. }
  destruct (scan_digits b 0 s3) as [v rest] eqn:Hscan.
  inversion Hstr. subst rest. clear Hstr.
  apply scan_digits_exhausted in Hscan. destruct Hscan as [Hd Hv].
  assert (Hb : 0 <= b).
  { revert Hsel. unfold select_base. cbn [Z.eqb orb].
    destruct s2 as [| c r]; [intros E; inversion E; lia |].
    destruct (Ascii.eqb c "0"); [| intros E; inversion E; lia].
    destruct r as [| x r']; [intros E; inversion E; lia |].
    destruct (true && is_x x && starts_with_digit 16 r');
      intros E; inversion E; lia. }
  assert (Hv0 : 0 <= v) by (subst v; apply horner_nonneg; lia).
  assert (Hneg : neg = false).
  { destruct neg; [| reflexivity]. exfalso.
    revert H0 Hrange. unfold clamp_long, LONG_MAX, LONG_MIN.
    change (2 ^ 63) with 9223372036854775808. lia. }
  subst neg.
  assert (Hn : n = v).
  { rewrite <- H0 in Hrange. apply clamp_long_in_range in Hrange. lia. }
  pose proof (select_base_sound s2 s3 b Hsel Hst Hd) as Hlit.
  rewrite <- Hv, <- Hn in Hlit.
  destruct (strip_sign_cases (skip_spaces s))
    as [(r & _ & E) | [(r & Es1 & E) | E]];
    rewrite E in Hstrip; inversion Hstrip; subst.
  - exists ws, "+"%string, s2. rewrite Es1 in Hs. auto 10.
  - exists ws, EmptyString, (skip_spaces s). cbn [String.append]. auto 10.
Qed.

(** The three ways [parse_i2c_slave_address] can end. *)
Lemma parse_i2c_slave_address_unfold (s : string) (t : trace) :
  parse_i2c_slave_address s t =
  let '(n, endptr) := strtol s 0 in
  if String.eqb endptr s || negb (String.eqb endptr EmptyString)
  then (Exited 1, (t ++ [EvStderr (bad_address_message s)])%list)
  else if Z.ltb n 0x3 || Z.gtb n 0x77
       then (Exited 1, (t ++ [EvStderr (out_of_range_message n)])%list)
       else (Done n, t).
Proof.
  unfold parse_i2c_slave_address.
  destruct (strtol s 0) as [n endptr].
  unfold bind, when, emit, exit, ret.
  destruct (String.eqb endptr s || negb (String.eqb endptr EmptyString)); [reflexivity |].
  destruct (Z.ltb n 3 || Z.gtb n 119); reflexivity.
Qed.

Lemma parse_accepts (s : string) (n : Z) (t : trace) :
  accepted_address s n -> parse_i2c_slave_address s t = (Done n, t).
Proof.
  intros Hacc.
  pose proof Hacc as (_ & _ & _ & _ & _ & _ & _ & Hrange).
  destruct (strtol_accepted s n Hacc) as [Hstr Hne].
  rewrite parse_i2c_slave_address_unfold, Hstr.
  destruct (String.eqb_spec EmptyString s) as [E | _]; [congruence |].
  cbn [String.eqb negb orb].
  destruct (Z.ltb_spec n 3); [lia |].
  destruct (Z.gtb_spec n 119); [lia |]. reflexivity.
Qed.

Lemma parse_done_accepted (s : string) (n : Z) (t t' : trace) :
  parse_i2c_slave_address s t = (Done n, t') -> accepted_address s n.
Proof.
  rewrite parse_i2c_slave_address_unfold.
  destruct (strtol s 0) as [v endptr] eqn:Hstr.
  destruct (String.eqb_spec endptr s) as [_ | Hne]; [discriminate |].
  destruct (String.eqb_spec endptr EmptyString) as [-> | _]; [| discriminate].
  cbn [negb orb].
  destruct (Z.ltb_spec v 3); [discriminate |].
  destruct (Z.gtb_spec v 119); [discriminate |].
  intros Hdone. inversion Hdone. subst.
  apply strtol_sound; [exact Hstr | congruence | lia].
Qed.

Lemma parse_rejects (s : string) (t : trace) :
  (forall n, ~ accepted_address s n) ->
  exists msg,
    parse_i2c_slave_address s t = (Exited 1, (t ++ [EvStderr msg])%list).
Proof.
  intros Hno.
  destruct (parse_i2c_slave_address s t) as [[n | st |] t'] eqn:Hp.
  - exfalso. eapply Hno, parse_done_accepted, Hp.
  - rewrite parse_i2c_slave_address_unfold in Hp.
    destruct (strtol s 0) as [v endptr].
    destruct (String.eqb endptr s || negb (String.eqb endptr EmptyString));
      [inversion Hp; eauto |].
    destruct (Z.ltb v 3 || Z.gtb v 119); inversion Hp; eauto.
  - rewrite parse_i2c_slave_address_unfold in Hp.
    destruct (strtol s 0) as [v endptr].
    destruct (String.eqb endptr s || negb (String.eqb endptr EmptyString));
      [discriminate |].
    destruct (Z.ltb v 3 || Z.gtb v 119); discriminate.
Qed.

(** C8 (amended): [parse_i2c_slave_address] returns [n] exactly when the
    argument is optional white space, an optional [+] and one C integer
    literal with nothing after it (decimal without leading zero, octal
    with a leading [0], or hexadecimal after [0x]/[0X]) whose value [n]
    lies in 0x03..0x77; every other argument is fatal with one message on
    standard error.  ["0x02"] and ["0x78"] are rejected as out of range,
    ["0x28"] gives 40. *)
Theorem C8_address_accepted_iff_literal (s : string) (t : trace) :
  (forall n, parse_i2c_slave_address s t = (Done n, t) <-> accepted_address s n) /\
  ((forall n, ~ accepted_address s n) ->
   exists msg,
     parse_i2c_slave_address s t = (Exited 1, (t ++ [EvStderr msg])%list)) /\
  parse_i2c_slave_address "0x02" t =
    (Exited 1, (t ++ [EvStderr (out_of_range_message 2)])%list) /\
  parse_i2c_slave_address "0x78" t =
    (Exited 1, (t ++ [EvStderr (out_of_range_message 120)])%list) /\
  parse_i2c_slave_address "0x28" t = (Done 40, t).
Proof.
  split; [| split; [| split; [| split]]].
  - intros n. split; [apply parse_done_accepted | apply parse_accepts].
  - apply parse_rejects.
  - rewrite parse_i2c_slave_address_unfold. reflexivity.
  - rewrite parse_i2c_slave_address_unfold. reflexivity.
  - rewrite parse_i2c_slave_address_unfold. reflexivity.
Qed.

Lemma C8_address_accepted_iff_literal_witness :
  accepted_address " +0X1f" 31 /\
  parse_i2c_slave_address " +0X1f" [] = (Done 31, []).
Proof.
  assert (Hacc : accepted_address " +0X1f" 31).
  { exists " "%string, "+"%string, "0X1f"%string.
    split; [reflexivity |]. split; [reflexivity |]. split; [right; reflexivity |].
    split; [| lia].
    apply (literal_hex "X" "1" "f"); reflexivity. }
  split; [exact Hacc |].
  exact (proj2 (proj1 (C8_address_accepted_iff_literal " +0X1f" []) 31) Hacc).
Defined.

(** C8 (as stated) fails on ["010"]: read as a decimal integer it is 10,
    within the range, yet the parser does not return 10 (it returns 8). *)
Lemma C8_counterexample : ~ C8_claim "010".
Proof.
  intros Hclaim.
  destruct (Hclaim 10 []) as [_ Hback].
  assert (Hten : parse_i2c_slave_address "010" [] = (Done 10, [])).
  { apply Hback. split; [reflexivity | lia]. }
  vm_compute in Hten. discriminate.
Qed.

Lemma decimal_digit_not_x (x : ascii) (d : Z) :
  digit_in 10 x = Some d -> is_x x = false.
Proof.
  intros H. unfold is_x.
  destruct (Ascii.eqb_spec x "x") as [-> | _]; [vm_compute in H; discriminate |].
  destruct (Ascii.eqb_spec x "X") as [-> | _]; [vm_compute in H; discriminate |].
  reflexivity.
Qed.

(** Where [scan_digits] stops: at the first character that is no digit
    of the base. *)
Lemma scan_digits_stops (base : Z) :
  forall (s : string) (acc : Z),
    digits_only base s = false ->
    exists v c r, scan_digits base acc s = (v, String c r).
Proof.
  induction s as [| c s IH]; intros acc H; cbn in *; [discriminate |].
  destruct (digit_in base c) as [d |]; [apply IH, H | eauto].
Qed.

Lemma strtol_leading_zero (ds : string) :
  digits_only 10 ds = true ->
  strtol (String "0" ds) 0 =
  let '(v, rest) := scan_digits 8 0 ds in (clamp_long v, rest).
Proof.
  intros Hd.
  assert (Hsign : strip_sign (skip_spaces (String "0" ds)) = (false, String "0" ds))
    by reflexivity.
  assert (Hsel : select_base 0 (String "0" ds) = (8, String "0" ds)).
  { cbn [select_base Ascii.eqb Bool.eqb Z.eqb orb andb]. 
    destruct ds as [| x r]; [reflexivity |].
    apply digits_only_head in Hd. destruct Hd as [[d Hx] _].
    rewrite (decimal_digit_not_x x d Hx). reflexivity. }
  unfold strtol. rewrite Hsign, Hsel. reflexivity.
Qed.

(** C10 (amended): an argument made of a leading [0] and decimal digits
    is read in base 8.  If all its digits are octal digits and the value
    lies in [0x03, 0x77], it is accepted with that value (["010"] gives
    8, not 10); if it holds an [8] or a [9], it is rejected as a bad slave
    address. *)
Theorem C10_leading_zero_is_octal (ds : string) (t : trace) :
  digits_only 10 ds = true ->
  (digits_only 8 ds = true ->
   0x03 <= numeral_value 8 ds <= 0x77 ->
   parse_i2c_slave_address (String "0" ds) t = (Done (numeral_value 8 ds), t)) /\
  (digits_only 8 ds = false ->
   parse_i2c_slave_address (String "0" ds) t =
   (Exited 1, (t ++ [EvStderr (bad_address_message (String "0" ds))])%list)).
Proof.
  intros Hdec. split.
  - intros Hd Hrange. apply parse_accepts.
    exists EmptyString, EmptyString, (String "0" ds).
    split; [reflexivity |]. split; [reflexivity |]. split; [left; reflexivity |].
    split; [apply literal_octal, Hd | exact Hrange].
  - intros Hoct.
    rewrite parse_i2c_slave_address_unfold, (strtol_leading_zero ds Hdec).
    destruct (scan_digits_stops 8 ds 0 Hoct) as (v & c & r & ->).
    cbn [String.eqb negb]. rewrite Bool.orb_true_r. reflexivity.
Qed.

Lemma C10_leading_zero_is_octal_witness :
  parse_i2c_slave_address "010" [] = (Done 8, []) /\
  parse_i2c_slave_address "08" [] =
  (Exited 1, [EvStderr (bad_address_message "08")]).
Proof.
  split.
  - apply (proj1 (C10_leading_zero_is_octal "10" [] eq_refl)).
    + reflexivity.
    + vm_compute. split; discriminate.
  - apply (proj2 (C10_leading_zero_is_octal "8" [] eq_refl)). reflexivity.
Defined.

(** C10 (as stated) fails on ["08"]: a leading-zero argument, 8 in
    either reading and within the range, yet the parser rejects it. *)
Lemma C10_counterexample : ~ C10_claim "8".
Proof.
  intros Hclaim.
  assert (Hrange : 0x03 <= numeral_value 8 "8" <= 0x77)
    by (vm_compute; split; discriminate).
  specialize (Hclaim eq_refl Hrange []).
  vm_compute in Hclaim. discriminate.
Qed.

(* ================================================================== *)
(** ** Range and bit layout of the decoded reading *)
(* ================================================================== *)

Lemma between_finite (lo hi x : spec_float) :
  is_finite lo = true -> is_finite hi = true ->
  SFleb lo x = true -> SFleb x hi = true -> is_finite x = true.
Proof.
  destruct lo as [sl | sl | | sl ml el], hi as [sh | sh | | sh mh eh],
    x as [sx | sx | | sx mx ex];
    try discriminate; try reflexivity;
    destruct sx; cbn; discriminate.
Qed.

(** X1: whatever four bytes the sensor delivers, both fields of the
    reading are ordinary numbers (neither NaN nor an infinity), the
    humidity lies between 0 and 100 and the temperature between -40 and
    125. *)
Theorem X1_reading_within_sensor_range (d : frame) :
  is_finite (humidity (decode d)) = true /\
  is_finite (temperature (decode d)) = true /\
  SFleb (float_of_int 0) (humidity (decode d)) = true /\
  SFleb (humidity (decode d)) (float_of_int 100) = true /\
  SFleb (float_of_int (-40)) (temperature (decode d)) = true /\
  SFleb (temperature (decode d)) (float_of_int 125) = true.
Proof.
  destruct (decode_range d) as (Hh0 & Hh1 & Ht0 & Ht1).
  split; [eapply between_finite; [| | exact Hh0 | exact Hh1]; reflexivity |].
  split; [eapply between_finite; [| | exact Ht0 | exact Ht1]; reflexivity |].
  auto.
Qed.

Lemma SFltb_irrefl (x : spec_float) : SFltb x x = false.
Proof.
  unfold SFltb, SFcompare.
  destruct x as [s | s | | s m e]; try destruct s; try reflexivity.
  - rewrite Z.compare_refl.
    change (Pos.compare_cont Eq m m) with (Pos.compare m m).
    rewrite Pos.compare_refl. reflexivity.
  - rewrite Z.compare_refl.
    change (Pos.compare_cont Eq m m) with (Pos.compare m m).
    rewrite Pos.compare_refl. reflexivity.
Qed.

Lemma table_ok_injective (f : Z -> spec_float) (lo hi : spec_float) (last : Z) :
  table_ok f lo hi last = true ->
  forall r1 r2, 0 <= r1 <= last -> 0 <= r2 <= last -> f r1 = f r2 -> r1 = r2.
Proof.
  intros Hok r1 r2 H1 H2 Heq.
  destruct (Z.lt_trichotomy r1 r2) as [Hlt | [Heq' | Hgt]]; [| exact Heq' |].
  - pose proof (table_ok_increasing f lo hi last Hok r1 r2 ltac:(lia) Hlt ltac:(lia)) as H.
    rewrite Heq, SFltb_irrefl in H. discriminate.
  - pose proof (table_ok_increasing f lo hi last Hok r2 r1 ltac:(lia) Hgt ltac:(lia)) as H.
    rewrite Heq, SFltb_irrefl in H. discriminate.
Qed.

Lemma uchar_high_bits (b : byte) (i : Z) : 8 <= i -> Z.testbit (uchar b) i = false.
Proof.
  intros Hi. pose proof (uchar_range b) as Hb.
  destruct (Z.eq_dec (uchar b) 0) as [-> | Hne]; [apply Z.bits_0 |].
  apply Z.bits_above_log2; [lia |].
  apply Z.lt_le_trans with 8; [| exact Hi].
  apply Z.log2_lt_pow2; [lia |]. change (2 ^ 8) with 256. lia.
Qed.

Lemma uchar_bits_inj (a b : byte) :
  (forall i, 0 <= i < 8 -> Z.testbit (uchar a) i = Z.testbit (uchar b) i) ->
  a = b.
Proof.
  intros H. apply uchar_inj. apply Z.bits_inj'. intros i Hi.
  destruct (Z.lt_ge_cases i 8); [apply H; lia |].
  rewrite !uchar_high_bits by lia. reflexivity.
Qed.

Lemma testbit_0x3f (i : Z) : 0 <= i -> Z.testbit 0x3f i = (i <? 6).
Proof.
  intros Hi. change 0x3f with (Z.ones 6).
  destruct (Z.ltb_spec i 6).
  - apply Z.ones_spec_low. lia.
  - apply Z.ones_spec_high. lia.
Qed.

Lemma testbit_0xfc (i : Z) : 0 <= i -> Z.testbit 0xfc i = (2 <=? i) && (i <? 8).
Proof.
  intros Hi. change 0xfc with (Z.shiftl (Z.ones 6) 2).
  destruct (Z.leb_spec 2 i); cbn [andb].
  - rewrite Z.shiftl_spec by lia.
    destruct (Z.ltb_spec i 8).
    + apply Z.ones_spec_low. lia.
    + apply Z.ones_spec_high. lia.
  - apply Z.shiftl_spec_low. lia.
Qed.

(** The bits of the two raw fields. *)
Lemma humidity_raw_bits (d : frame) (i : Z) :
  0 <= i ->
  Z.testbit (humidity_raw d) i =
  if i <? 8 then Z.testbit (uchar (data1 d)) i
  else (i <? 14) && Z.testbit (uchar (data0 d)) (i - 8).
Proof.
  intros Hi. unfold humidity_raw. rewrite Z.lor_spec.
  destruct (Z.ltb_spec i 8).
  - rewrite Z.shiftl_spec_low by lia. reflexivity.
  - rewrite Z.shiftl_spec by lia. rewrite uchar_high_bits by lia.
    rewrite Bool.orb_false_r, Z.land_spec, testbit_0x3f by lia.
    rewrite Bool.andb_comm. f_equal.
    destruct (Z.ltb_spec (i - 8) 6), (Z.ltb_spec i 14); try reflexivity; lia.
Qed.

Lemma temperature_raw_bits (d : frame) (i : Z) :
  0 <= i ->
  Z.testbit (temperature_raw d) i =
  if i <? 8 then (2 <=? i) && Z.testbit (uchar (data3 d)) i
  else Z.testbit (uchar (data2 d)) (i - 8).
Proof.
  intros Hi. unfold temperature_raw. rewrite Z.lor_spec, Z.land_spec.
  destruct (Z.ltb_spec i 8).
  - rewrite Z.shiftl_spec_low by lia. rewrite testbit_0xfc by lia.
    cbn [orb]. rewrite Bool.andb_comm.
    destruct (Z.ltb_spec i 8); [| lia]. rewrite Bool.andb_true_r. reflexivity.
  - rewrite Z.shiftl_spec by lia. rewrite (uchar_high_bits (data3 d)) by lia.
    cbn [andb]. apply Bool.orb_false_r.
Qed.

(** X2: the reading determines the payload.  Two frames that decode to
    the same reading agree on the six low bits of byte 0, on bytes 1 and
    2 and on the six high bits of byte 3. *)
Theorem X2_equal_readings_same_payload (d d' : frame) :
  decode d = decode d' -> same_payload d d'.
Proof.
  intros Heq.
  assert (Hh : humidity_raw d = humidity_raw d').
  { pose proof (humidity_raw_range d). pose proof (humidity_raw_range d').
    apply (table_ok_injective _ _ _ _ humidity_table); try lia.
    exact (f_equal humidity Heq). }
  assert (Ht : temperature_raw d = temperature_raw d').
  { destruct (temperature_raw_mult4 d) as (q & Hq & E).
    destruct (temperature_raw_mult4 d') as (q' & Hq' & E').
    rewrite E, E'. f_equal.
    apply (table_ok_injective _ _ _ _ temperature_table); try lia.
    cbn beta. rewrite <- E, <- E'. exact (f_equal temperature Heq). }
  repeat split.
  - intros i Hi.
    pose proof (humidity_raw_bits d (i + 8) ltac:(lia)) as B.
    pose proof (humidity_raw_bits d' (i + 8) ltac:(lia)) as B'.
    rewrite Hh, B' in B.
    destruct (Z.ltb_spec (i + 8) 8); [lia |].
    destruct (Z.ltb_spec (i + 8) 14); [| lia].
    cbn [andb] in B. replace (i + 8 - 8) with i in B by lia. auto.
  - apply uchar_bits_inj. intros i Hi.
    pose proof (humidity_raw_bits d i ltac:(lia)) as B.
    pose proof (humidity_raw_bits d' i ltac:(lia)) as B'.
    rewrite Hh, B' in B.
    destruct (Z.ltb_spec i 8); [auto | lia].
  - apply uchar_bits_inj. intros i Hi.
    pose proof (temperature_raw_bits d (i + 8) ltac:(lia)) as B.
    pose proof (temperature_raw_bits d' (i + 8) ltac:(lia)) as B'.
    rewrite Ht, B' in B.
    destruct (Z.ltb_spec (i + 8) 8); [lia |].
    replace (i + 8 - 8) with i in B by lia. auto.
  - intros i Hi.
    pose proof (temperature_raw_bits d i ltac:(lia)) as B.
    pose proof (temperature_raw_bits d' i ltac:(lia)) as B'.
    rewrite Ht, B' in B.
    destruct (Z.ltb_spec i 8); [| lia].
    destruct (Z.leb_spec 2 i); [| lia].
    cbn [andb] in B. auto.
Qed.

Lemma X2_equal_readings_same_payload_witness :
  same_payload (Frame xdf xff x66 x67) (Frame x1f xff x66 x64).
Proof.
  apply (X2_equal_readings_same_payload (Frame xdf xff x66 x67)
                                        (Frame x1f xff x66 x64)).
  vm_compute. reflexivity.
Defined.

Lemma lor_shifted_byte (x : Z) (b : byte) :
  Z.lor (Z.shiftl x 8) (uchar b) = x * 256 + uchar b.
Proof.
  assert (Hland : Z.land (Z.shiftl x 8) (uchar b) = 0).
  { apply Z.bits_inj'. intros i Hi. rewrite Z.land_spec, Z.bits_0.
    destruct (Z.lt_ge_cases i 8).
    - rewrite Z.shiftl_spec_low by lia. reflexivity.
    - rewrite uchar_high_bits by lia. apply Bool.andb_false_r. }
  rewrite <- Z.lxor_lor by exact Hland.
  rewrite <- Z.add_nocarry_lxor by exact Hland.
  rewrite Z.shiftl_mul_pow2 by lia. reflexivity.
Qed.

Lemma land_0xfc_byte (b : byte) : Z.land (uchar b) 0xfc = 4 * (uchar b / 4).
Proof.
  transitivity (Z.shiftl (Z.shiftr (uchar b) 2) 2).
  - apply Z.bits_inj'. intros i Hi.
    rewrite Z.land_spec, testbit_0xfc by lia.
    destruct (Z.leb_spec 2 i).
    + rewrite Z.shiftl_spec, Z.shiftr_spec by lia.
      replace (i - 2 + 2) with i by lia.
      destruct (Z.ltb_spec i 8); cbn [andb].
      * apply Bool.andb_true_r.
      * rewrite uchar_high_bits by lia. reflexivity.
    + rewrite Z.shiftl_spec_low by lia. cbn [andb]. apply Bool.andb_false_r.
  - rewrite Z.shiftl_mul_pow2, Z.shiftr_div_pow2 by lia.
    change (2 ^ 2) with 4. lia.
Qed.

(** X3: both raw fields are big-endian.  The humidity field is the six
    low bits of byte 0 followed by byte 1; the temperature field is byte 2
    followed by byte 3 with its two low bits cleared. *)
Theorem X3_raw_fields_big_endian (d : frame) :
  humidity_raw d = (uchar (data0 d) mod 64) * 256 + uchar (data1 d) /\
  temperature_raw d = uchar (data2 d) * 256 + 4 * (uchar (data3 d) / 4).
Proof.
  split.
  - unfold humidity_raw. rewrite lor_shifted_byte.
    change 0x3f with (Z.ones 6). rewrite Z.land_ones by lia. reflexivity.
  - unfold temperature_raw. rewrite <- land_0xfc_byte.
    pose proof (uchar_range (data3 d)) as H3.
    assert (Hland : Z.land (Z.shiftl (uchar (data2 d)) 8)
                           (Z.land (uchar (data3 d)) 0xfc) = 0).
    { apply Z.bits_inj'. intros i Hi. rewrite !Z.land_spec, Z.bits_0.
      destruct (Z.lt_ge_cases i 8).
      - rewrite Z.shiftl_spec_low by lia. reflexivity.
      - rewrite uchar_high_bits by lia. cbn [andb]. apply Bool.andb_false_r. }
    rewrite <- Z.lxor_lor by exact Hland.
    rewrite <- Z.add_nocarry_lxor by exact Hland.
    rewrite Z.shiftl_mul_pow2 by lia. reflexivity.
Qed.

(* ================================================================== *)
(** ** The transaction and the name file, call by call *)
(* ================================================================== *)

(** X4: every call of [take_reading] first writes the single byte 0 to
    the descriptor.  If that write fails, the only further event is the
    errno message and the process exits with status 1.  Otherwise follow
    the 60 ms sleep, one [read] of four bytes and at most one message,
    and nothing else. *)
Theorem X4_transaction_protocol (W : world) (fd : Z) (t : trace) :
  exists tail,
    snd (take_reading W fd t) =
      (t ++ EvWrite fd [x00] (write_result W t fd) :: tail)%list /\
    ((write_result W t fd < 0 /\
      tail = [EvStderrErrno "writing to i2c"] /\
      fst (take_reading W fd t) = Exited 1) \/
     (0 <= write_result W t fd /\
      exists sz msgs,
        tail = EvUsleep 60000 :: EvRead fd 4 sz :: msgs /\
        forallb is_message msgs = true /\
        (List.length msgs <= 1)%nat)).
Proof.
  destruct (Z.lt_ge_cases (write_result W t fd) 0) as [Hneg | Hge].
  - rewrite (take_reading_failed_write W fd t Hneg). cbn [fst snd].
    eexists. split; [reflexivity |]. left. auto.
  - rewrite (take_reading_unfold W fd t Hge). unfold before_read.
    destruct (os_read W _ fd) as [avail |].
    + destruct avail as [| b0 [| b1 [| b2 [| b3 rest]]]]; cbn [fst snd];
        rewrite <- app_assoc; cbn [app];
        (eexists; split; [reflexivity |]; right; split; [exact Hge |]);
        eexists _, _; (split; [reflexivity |]); split; try reflexivity; cbn; lia.
    + cbn [fst snd]. rewrite <- app_assoc. cbn [app].
      eexists; split; [reflexivity |]. right. split; [exact Hge |].
      eexists _, _. split; [reflexivity |]. split; [reflexivity | cbn; lia].
Qed.

(** X5: a [write] that fails ends the process: [take_reading] exits with
    status 1 right after the errno message, without sleeping or reading,
    and so does [main] when its first transaction meets that failure. *)
Theorem X5_failed_write_is_fatal (W : world) (fd : Z) (t : trace) :
  os_write W t fd [x00] = None ->
  let t_end := (t ++ [EvWrite fd [x00] (-1);
                      EvStderrErrno "writing to i2c"])%list in
  take_reading W fd t = (Exited 1, t_end) /\
  forall fuel opts extra t0 v,
    startup W opts extra t0 = (Done v, t) -> v_fd v = fd ->
    main W (S fuel) opts extra t0 = (Exited 1, t_end).
Proof.
  intros Hw t_end.
  assert (Hres : write_result W t fd = -1) by (unfold write_result; now rewrite Hw).
  assert (Htake : take_reading W fd t = (Exited 1, t_end)).
  { rewrite take_reading_failed_write by lia. unfold t_end. now rewrite Hres. }
  split; [exact Htake |].
  intros fuel opts extra t0 v Hstart Hfd.
  unfold main, bind. rewrite Hstart. cbn [poll]. unfold bind.
  rewrite Hfd, Htake. reflexivity.
Qed.

Lemma X5_failed_write_is_fatal_witness :
  main (machine None (Some [x1f; xff; x66; x64])) 1
       [("d"%char, "/dev/i2c-1"%string)] false [] =
  (Exited 1,
   [EvOpen "/dev/i2c-1" O_RDWR 3; EvIoctl 3 I2C_SLAVE 0x28 0;
    EvWrite 3 [x00] (-1); EvStderrErrno "writing to i2c"]).
Proof.
  apply (proj2 (X5_failed_write_is_fatal
                  (machine None (Some [x1f; xff; x66; x64])) 3
                  [EvOpen "/dev/i2c-1" O_RDWR 3; EvIoctl 3 I2C_SLAVE 0x28 0]
                  eq_refl)
               0%nat [("d"%char, "/dev/i2c-1"%string)] false []
               (Vars 3 0 1 1 0x28));
    reflexivity.
Defined.

(** X6: when [name_file_matches] returns, it has opened the name file
    of the entry read-only, read at most [strlen(want) + 2] bytes from it
    once and closed that descriptor again; its result is 0 or 1. *)
Theorem X6_name_file_closed_on_return (W : world) (dir subdir want : string)
        (t t' : trace) (res : Z) :
  name_file_matches W dir subdir want t = (Done res, t') ->
  let path := (dir ++ "/" ++ subdir ++ "/name")%string in
  let count := Z.of_nat (String.length want) + 2 in
  exists fd got,
    0 <= fd /\ 0 <= got <= count /\
    t' = (t ++ [EvOpen path O_RDONLY fd; EvRead fd count got; EvClose fd])%list /\
    (res = 0 \/ res = 1).
Proof.
  intros Hrun path count.
  rewrite name_file_matches_unfold in Hrun. cbv zeta in Hrun.
  fold path count in Hrun.
  destruct (Z.ltb_spec (os_open W t path O_RDONLY) 0) as [Hneg | Hge];
    [discriminate |].
  destruct (os_read W _ _) as [content |]; [| discriminate].
  inversion Hrun as [[Hres Ht]]. clear Hrun.
  exists (os_open W t path O_RDONLY), (Z.of_nat (List.length (firstn (Z.to_nat count) content))).
  split; [exact Hge |]. split.
  - rewrite length_firstn. lia.
  - split; [rewrite <- app_assoc; reflexivity |].
    unfold compare_name.
    destruct (_ || _); [destruct (Z.eqb _ 0) |]; auto.
Qed.

Lemma X6_name_file_closed_on_return_witness :
  exists fd got,
    0 <= fd /\ 0 <= got <= 7 /\
    [EvOpen "/sys/class/i2c-dev/i2c-0/name" O_RDONLY 3; EvRead 3 7 6; EvClose 3] =
    [EvOpen "/sys/class/i2c-dev/i2c-0/name" O_RDONLY fd; EvRead fd 7 got;
     EvClose fd] /\
    (0 = 0 \/ 0 = 1).
Proof.
  apply (X6_name_file_closed_on_return healthy "/sys/class/i2c-dev" "i2c-0"
           "bcm.1" [] _ 0).
  vm_compute. reflexivity.
Defined.

(** X7: [name_file_matches] does not return when the name file cannot
    be opened or read.  The process exits with status 1 after an errno
    message, which names the path when it is the [open] that failed; a
    failed [read] is the last system call, the descriptor stays open. *)
Theorem X7_name_file_errors_are_fatal (W : world) (dir subdir want : string)
        (t : trace) :
  let path := (dir ++ "/" ++ subdir ++ "/name")%string in
  let fd := os_open W t path O_RDONLY in
  let t1 := (t ++ [EvOpen path O_RDONLY fd])%list in
  fd < 0 \/ os_read W t1 fd = None ->
  exists msg tail,
    name_file_matches W dir subdir want t =
      (Exited 1, (t1 ++ tail ++ [EvStderrErrno msg])%list) /\
    ((fd < 0 /\ tail = [] /\ msg = ("opening " ++ path)%string) \/
     (0 <= fd /\
      tail = [EvRead fd (Z.of_nat (String.length want) + 2) (-1)])).
Proof.
  intros path fd t1 Herr.
  rewrite name_file_matches_unfold. cbv zeta. fold path fd t1.
  destruct (Z.ltb_spec fd 0) as [Hneg | Hge].
  - exists ("opening " ++ path)%string, []. split; [reflexivity |]. left. auto.
  - destruct Herr as [Hneg | Hread]; [lia |]. rewrite Hread.
    exists ("reading " ++ path)%string,
           [EvRead fd (Z.of_nat (String.length want) + 2) (-1)].
    split; [reflexivity |]. right. auto.
Qed.

Lemma X7_name_file_errors_are_fatal_witness :
  exists msg tail,
    name_file_matches failing "/sys/class/i2c-dev" "i2c-0" "bcm.0" [] =
      (Exited 1,
       ([EvOpen "/sys/class/i2c-dev/i2c-0/name" O_RDONLY 3]
          ++ tail ++ [EvStderrErrno msg])%list) /\
    ((3 < 0 /\ tail = [] /\ msg = "opening /sys/class/i2c-dev/i2c-0/name"%string) \/
     (0 <= 3 /\ tail = [EvRead 3 7 (-1)])).
Proof.
  apply (X7_name_file_errors_are_fatal failing "/sys/class/i2c-dev" "i2c-0"
           "bcm.0" []).
  right. reflexivity.
Defined.

(* ================================================================== *)
(** ** The bus lookup: what is enumerated and opened *)
(* ================================================================== *)

Lemma open_i2c_dev_unfold (W : world) (file : string) (t : trace) :
  let path := ("/dev/" ++ file)%string in
  let fd := os_open W t path O_RDWR in
  open_i2c_dev W file t =
  if fd <? 0
  then (Exited 1,
        (t ++ [EvOpen path O_RDWR fd; EvStderrErrno ("opening " ++ path)])%list)
  else (Done fd, (t ++ [EvOpen path O_RDWR fd])%list).
Proof.
  intros path fd. unfold open_i2c_dev. fold path.
  unfold die_errno, bind, when, sys_open, emit, ret, exit.
  cbn [String.append String.length Z.of_nat Z.ltb Z.compare Pos.of_succ_nat].
  assert (Hlen : Z.ltb (Z.of_nat (String.length path)) 1 = false).
  { apply Z.ltb_ge. unfold path. rewrite string_length_append.
    cbn [String.length]. lia. }
  fold path in Hlen |- *.
  change (String "/" (String "d" (String "e" (String "v" (String "/" file)))))
    with path.
  rewrite ?Hlen. fold fd.
  destruct (Z.ltb_spec fd 0); [rewrite <- app_assoc |]; reflexivity.
Qed.

(** One round of the [readdir] loop on an entry that is not hidden. *)
Lemma scan_entries_visible (W : world) (dir name d : string)
      (rest : list string) (fails : bool) (t : trace) :
  hidden d = false ->
  scan_entries W dir name (d :: rest) fails t =
  match name_file_matches W dir d name (t ++ [EvReaddir (Some d)])%list with
  | (Done m, t2) =>
      if Z.eqb m 0 then scan_entries W dir name rest fails t2
      else match open_i2c_dev W d t2 with
           | (Done fd, t3) => (Done fd, (t3 ++ [EvClosedir])%list)
           | (Exited s, t3) => (Exited s, t3)
           | (OutOfFuel, t3) => (OutOfFuel, t3)
           end
  | (Exited s, t2) => (Exited s, t2)
  | (OutOfFuel, t2) => (OutOfFuel, t2)
  end.
Proof.
  intros Hvis. cbn [scan_entries]. rewrite Hvis.
  unfold bind at 1. unfold emit at 1. unfold bind at 1.
  destruct (name_file_matches W dir d name _) as [[m | s |] t2]; try reflexivity.
  destruct (Z.eqb m 0); cbn [negb]; [reflexivity |].
  unfold bind, emit, ret.
  destruct (open_i2c_dev W d t2) as [[fd | s |] t3]; reflexivity.
Qed.

Lemma scan_entries_hidden (W : world) (dir name d : string)
      (rest : list string) (fails : bool) (t : trace) :
  hidden d = true ->
  scan_entries W dir name (d :: rest) fails t =
  scan_entries W dir name rest fails (t ++ [EvReaddir (Some d)])%list.
Proof.
  intros Hhid. cbn [scan_entries]. rewrite Hhid. reflexivity.
Qed.

Lemma scan_entries_end (W : world) (dir name : string) (fails : bool) (t : trace) :
  scan_entries W dir name [] fails t =
  (Exited 1,
   (t ++ [EvReaddir None;
          if fails then EvStderrErrno ("reading directory " ++ dir)
          else EvStderr ("could not find i2c bus " ++ name ++ nl)])%list).
Proof.
  cbn [scan_entries]. unfold die_errno, bind, when, emit, exit, ret.
  destruct fails; rewrite <- ?app_assoc; reflexivity.
Qed.

Lemma scan_entries_skips_hidden (W : world) (dir name : string) (fails : bool) :
  forall (pre rest : list string) (t : trace),
    forallb hidden pre = true ->
    scan_entries W dir name (pre ++ rest) fails t =
    scan_entries W dir name rest fails (t ++ readdir_events pre)%list.
Proof.
  induction pre as [| d pre IH]; intros rest t Hpre.
  - cbn. now rewrite app_nil_r.
  - cbn [forallb] in Hpre. apply andb_true_iff in Hpre. destruct Hpre as [Hd Hpre].
    cbn [app]. rewrite scan_entries_hidden by exact Hd.
    rewrite IH by exact Hpre. cbn [readdir_events map].
    rewrite <- app_assoc. reflexivity.
Qed.

(** X8: when the registry holds nothing but entries starting with a dot,
    [open_i2c_bus] enumerates them without opening any file and exits
    with status 1, reporting the bus as not found, or the [readdir] error
    if the enumeration ended with one. *)
Theorem X8_no_visible_entry (W : world) (name : string) (t : trace)
        (entries : list string) (fails : bool) :
  os_opendir W t registry = Some (entries, fails) ->
  forallb hidden entries = true ->
  open_i2c_bus W name t =
  (Exited 1,
   (t ++ [EvOpendir registry true] ++ readdir_events entries
      ++ [EvReaddir None;
          if fails then EvStderrErrno ("reading directory " ++ registry)
          else EvStderr ("could not find i2c bus " ++ name ++ nl)])%list).
Proof.
  intros Hdir Hhid.
  unfold open_i2c_bus, bind, sys_opendir. fold registry. rewrite Hdir.
  rewrite <- (app_nil_r entries) at 1.
  rewrite scan_entries_skips_hidden by exact Hhid.
  rewrite scan_entries_end. rewrite <- !app_assoc. reflexivity.
Qed.

Lemma X8_no_visible_entry_witness :
  open_i2c_bus dot_only "bcm.1" [] =
  (Exited 1,
   [EvOpendir registry true; EvReaddir (Some "."%string);
    EvReaddir (Some ".."%string); EvReaddir None;
    EvStderr ("could not find i2c bus bcm.1" ++ nl)]).
Proof.
  apply (X8_no_visible_entry dot_only "bcm.1" [] ["."; ".."]%string false);
    reflexivity.
Defined.

Lemma name_file_matches_events (W : world) (dir subdir want : string) (t : trace) :
  exists evs,
    snd (name_file_matches W dir subdir want t) = (t ++ evs)%list /\
    forall p fl r, In (EvOpen p fl r) evs ->
      p = (dir ++ "/" ++ subdir ++ "/name")%string /\ fl = O_RDONLY.
Proof.
  rewrite name_file_matches_unfold. cbv zeta.
  set (path := (dir ++ "/" ++ subdir ++ "/name")%string).
  set (fd := os_open W t path O_RDONLY).
  destruct (Z.ltb fd 0).
  - cbn [snd]. rewrite <- app_assoc. eexists. split; [reflexivity |].
    intros p fl r [H | [H | []]]; inversion H; auto.
  - destruct (os_read W _ fd); cbn [snd]; rewrite <- app_assoc;
      (eexists; split; [reflexivity |]);
      intros p fl r [H | [H | [H | []]]]; inversion H; auto.
Qed.

Lemma open_i2c_dev_events (W : world) (file : string) (t : trace) :
  exists evs,
    snd (open_i2c_dev W file t) = (t ++ evs)%list /\
    forall p fl r, In (EvOpen p fl r) evs ->
      p = ("/dev/" ++ file)%string /\ fl = O_RDWR.
Proof.
  rewrite open_i2c_dev_unfold. cbv zeta.
  destruct (Z.ltb _ 0); cbn [snd]; (eexists; split; [reflexivity |]).
  - intros p fl r [H | [H | []]]; inversion H; auto.
  - intros p fl r [H | []]; inversion H; auto.
Qed.

Lemma opened_for_cons (dir d : string) (entries : list string)
      (p : string) (fl : open_flags) :
  opened_for dir entries p fl -> opened_for dir (d :: entries) p fl.
Proof. intros (d' & Hin & H). exists d'. split; [right; exact Hin | exact H]. Qed.

(** X9: the bus lookup opens nothing but the name file (read-only) and
    the device node (read-write) of entries that do not start with a
    dot. *)
Theorem X9_hidden_entries_never_opened (W : world) (dir name : string)
        (fails : bool) (entries : list string) (t : trace) :
  exists evs,
    snd (scan_entries W dir name entries fails t) = (t ++ evs)%list /\
    forall p fl r, In (EvOpen p fl r) evs -> opened_for dir entries p fl.
Proof.
  revert t. induction entries as [| d rest IH]; intros t.
  - rewrite scan_entries_end. cbn [snd]. eexists. split; [reflexivity |].
    intros p fl r [H | [H | []]]; [discriminate | destruct fails; discriminate].
  - destruct (hidden d) eqn:Hd.
    + rewrite scan_entries_hidden by exact Hd.
      destruct (IH (t ++ [EvReaddir (Some d)])%list) as (evs & Hsnd & Hopen).
      exists (EvReaddir (Some d) :: evs). split.
      * rewrite Hsnd, <- app_assoc. reflexivity.
      * intros p fl r [H | H]; [discriminate |].
        apply opened_for_cons. eapply Hopen, H.
    + rewrite scan_entries_visible by exact Hd.
      destruct (name_file_matches_events W dir d name (t ++ [EvReaddir (Some d)])%list)
        as (e1 & Hs1 & Ho1).
      assert (Hmine : forall p fl r, In (EvOpen p fl r) e1 ->
                                     opened_for dir (d :: rest) p fl).
      { intros p fl r H. destruct (Ho1 p fl r H) as [-> ->].
        exists d. split; [left; reflexivity |]. split; [exact Hd |]. left. auto. }
      destruct (name_file_matches W dir d name _) as [[m | s |] t2];
        cbn [snd] in Hs1; subst t2.
      * destruct (Z.eqb m 0).
        -- destruct (IH ((t ++ [EvReaddir (Some d)]) ++ e1)%list)
             as (evs & Hsnd & Hopen).
           exists (EvReaddir (Some d) :: e1 ++ evs). split.
           ++ rewrite Hsnd, <- !app_assoc. reflexivity.
           ++ intros p fl r [H | H]; [discriminate |].
              apply in_app_or in H. destruct H as [H | H]; [eapply Hmine, H |].
              apply opened_for_cons. eapply Hopen, H.
        -- destruct (open_i2c_dev_events W d ((t ++ [EvReaddir (Some d)]) ++ e1)%list)
             as (e2 & Hs2 & Ho2).
           assert (Hdev : forall p fl r, In (EvOpen p fl r) e2 ->
                                         opened_for dir (d :: rest) p fl).
           { intros p fl r H. destruct (Ho2 p fl r H) as [-> ->].
             exists d. split; [left; reflexivity |]. split; [exact Hd |].
             right. auto. }
           destruct (open_i2c_dev W d _) as [[fd | s |] t3];
             cbn [snd] in Hs2 |- *; subst t3.
           ++ exists (EvReaddir (Some d) :: e1 ++ e2 ++ [EvClosedir]). split.
              ** rewrite <- !app_assoc. reflexivity.
              ** intros p fl r [H | H]; [discriminate |].
                 apply in_app_or in H. destruct H as [H | H]; [eapply Hmine, H |].
                 apply in_app_or in H. destruct H as [H | H]; [eapply Hdev, H |].
                 destruct H as [H | []]. discriminate.
           ++ exists (EvReaddir (Some d) :: e1 ++ e2). split.
              ** rewrite <- !app_assoc. reflexivity.
              ** intros p fl r [H | H]; [discriminate |].
                 apply in_app_or in H. destruct H as [H | H];
                   [eapply Hmine, H | eapply Hdev, H].
           ++ exists (EvReaddir (Some d) :: e1 ++ e2). split.
              ** rewrite <- !app_assoc. reflexivity.
              ** intros p fl r [H | H]; [discriminate |].
                 apply in_app_or in H. destruct H as [H | H];
                   [eapply Hmine, H | eapply Hdev, H].
      * cbn [snd]. exists (EvReaddir (Some d) :: e1). split.
        -- rewrite <- !app_assoc. reflexivity.
        -- intros p fl r [H | H]; [discriminate | eapply Hmine, H].
      * cbn [snd]. exists (EvReaddir (Some d) :: e1). split.
        -- rewrite <- !app_assoc. reflexivity.
        -- intros p fl r [H | H]; [discriminate | eapply Hmine, H].
Qed.

(* ================================================================== *)
(** ** The bus lookup: the entry taken *)
(* ================================================================== *)

Lemma scan_entries_done_shape (W : world) (dir name : string) (fails : bool) :
  forall (entries : list string) (t t' : trace) (fd : Z),
    scan_entries W dir name entries fails t = (Done fd, t') ->
    0 <= fd /\
    exists t0 d fd0 got,
      In d entries /\ hidden d = false /\ 0 <= fd0 /\
      t' = (t0 ++ [EvReaddir (Some d);
                   EvOpen (dir ++ "/" ++ d ++ "/name") O_RDONLY fd0;
                   EvRead fd0 (Z.of_nat (String.length name) + 2) got;
                   EvClose fd0;
                   EvOpen ("/dev/" ++ d) O_RDWR fd;
                   EvClosedir])%list.
Proof.
  induction entries as [| d rest IH]; intros t t' fd Hrun.
  - rewrite scan_entries_end in Hrun. discriminate.
  - destruct (hidden d) eqn:Hd.
    + rewrite scan_entries_hidden in Hrun by exact Hd.
      destruct (IH _ _ _ Hrun) as (Hfd & t0 & d' & fd0 & got & Hin & H).
      split; [exact Hfd |]. exists t0, d', fd0, got. split; [right; exact Hin | exact H].
    + rewrite scan_entries_visible in Hrun by exact Hd.
      destruct (name_file_matches W dir d name _) as [[m | s |] t2] eqn:Hnfm;
        try discriminate.
      destruct (Z.eqb m 0).
      * destruct (IH _ _ _ Hrun) as (Hfd & t0 & d' & fd0 & got & Hin & H).
        split; [exact Hfd |]. exists t0, d', fd0, got.
        split; [right; exact Hin | exact H].
      * rewrite name_file_matches_unfold in Hnfm. cbv zeta in Hnfm.
        set (t1 := (t ++ [EvReaddir (Some d)])%list) in *.
        set (fd0 := os_open W t1 (dir ++ "/" ++ d ++ "/name") O_RDONLY) in *.
        destruct (Z.ltb_spec fd0 0) as [Hneg | Hfd0]; [discriminate |].
        destruct (os_read W _ fd0) as [content |]; [| discriminate].
        set (got := Z.of_nat (List.length (firstn _ content))) in *.
        injection Hnfm as _ Ht2. subst t2.
        rewrite open_i2c_dev_unfold in Hrun. cbv zeta in Hrun.
        destruct (Z.ltb (os_open W _ ("/dev/" ++ d) O_RDWR) 0) eqn:Hge;
          [discriminate |].
        apply Z.ltb_ge in Hge. injection Hrun as <- <-. split; [exact Hge |].
        exists t, d, fd0, got.
        split; [left; reflexivity |]. split; [exact Hd |]. split; [exact Hfd0 |].
        unfold t1. rewrite <- !app_assoc. reflexivity.
Qed.

(** X10: when [open_i2c_bus] returns, its result is a valid descriptor,
    and the last things it did were: read a visible entry [d], open,
    read and close the name file of [d], open [/dev/d] read-write, which
    gave the result, and close the directory. *)
Theorem X10_bus_descriptor (W : world) (name : string) (t t' : trace) (fd : Z) :
  open_i2c_bus W name t = (Done fd, t') ->
  0 <= fd /\
  exists entries fails t0 d fd0 got,
    os_opendir W t registry = Some (entries, fails) /\
    In d entries /\ hidden d = false /\ 0 <= fd0 /\
    t' = (t0 ++ [EvReaddir (Some d);
                 EvOpen (registry ++ "/" ++ d ++ "/name") O_RDONLY fd0;
                 EvRead fd0 (Z.of_nat (String.length name) + 2) got;
                 EvClose fd0;
                 EvOpen ("/dev/" ++ d) O_RDWR fd;
                 EvClosedir])%list.
Proof.
  unfold open_i2c_bus, bind, sys_opendir. fold registry. intros Hrun.
  destruct (os_opendir W t registry) as [[entries fails] |] eqn:Hdir.
  - apply scan_entries_done_shape in Hrun.
    destruct Hrun as (Hfd & t0 & d & fd0 & got & H).
    split; [exact Hfd |]. exists entries, fails, t0, d, fd0, got.
    split; [reflexivity | exact H].
  - unfold die_errno, bind, emit, exit in Hrun. discriminate.
Qed.

Lemma X10_bus_descriptor_witness :
  0 <= 3 /\
  exists entries fails t0 d fd0 got,
    os_opendir healthy [] registry = Some (entries, fails) /\
    In d entries /\ hidden d = false /\ 0 <= fd0 /\
    [EvOpendir "/sys/class/i2c-dev" true;
     EvReaddir (Some "."%string); EvReaddir (Some ".."%string);
     EvReaddir (Some "i2c-0"%string);
     EvOpen "/sys/class/i2c-dev/i2c-0/name" O_RDONLY 3; EvRead 3 7 6; EvClose 3;
     EvOpen "/dev/i2c-0" O_RDWR 3; EvClosedir] =
    (t0 ++ [EvReaddir (Some d);
            EvOpen (registry ++ "/" ++ d ++ "/name") O_RDONLY fd0;
            EvRead fd0 (Z.of_nat (String.length "bcm.0") + 2) got;
            EvClose fd0;
            EvOpen ("/dev/" ++ d) O_RDWR 3;
            EvClosedir])%list.
Proof.
  apply (X10_bus_descriptor healthy "bcm.0" []).
  vm_compute. reflexivity.
Defined.

(** X11: the lookup takes the first visible entry whose name file holds
    the wanted name, with or without one trailing newline: the device of
    that entry is opened and later entries are not looked at.  An entry
    whose name file holds anything else is passed over and the lookup
    goes on with the remaining entries. *)
Theorem X11_first_match_wins (W : world) (dir name d : string)
        (rest : list string) (fails : bool) (t : trace) (content : list byte) :
  let t1 := (t ++ [EvReaddir (Some d)])%list in
  let path := (dir ++ "/" ++ d ++ "/name")%string in
  let fd0 := os_open W t1 path O_RDONLY in
  let count := Z.of_nat (String.length name) + 2 in
  let got := Z.of_nat (List.length (firstn (Z.to_nat count) content)) in
  let t2 := (t1 ++ [EvOpen path O_RDONLY fd0; EvRead fd0 count got;
                    EvClose fd0])%list in
  let fd := os_open W t2 ("/dev/" ++ d) O_RDWR in
  hidden d = false ->
  0 <= fd0 ->
  os_read W (t1 ++ [EvOpen path O_RDONLY fd0]) fd0 = Some content ->
  (names_bus content name -> 0 <= fd ->
   scan_entries W dir name (d :: rest) fails t =
   (Done fd, (t2 ++ [EvOpen ("/dev/" ++ d) O_RDWR fd; EvClosedir])%list)) /\
  (~ names_bus content name ->
   scan_entries W dir name (d :: rest) fails t =
   scan_entries W dir name rest fails t2).
Proof.
  intros t1 path fd0 count got t2 fd Hvis Hfd0 Hread.
  assert (Hnfm : name_file_matches W dir d name t1 =
                 (Done (compare_name (list_byte_of_string name) got
                          (firstn (Z.to_nat count) content)), t2)).
  { rewrite name_file_matches_unfold. cbv zeta. fold path fd0 count.
    destruct (Z.ltb_spec fd0 0) as [Hneg | _]; [lia |].
    rewrite Hread. unfold t2, got. rewrite <- app_assoc. reflexivity. }
  pose proof (compare_name_spec (list_byte_of_string name) content) as Hcmp.
  cbv zeta in Hcmp. rewrite list_byte_of_string_length in Hcmp.
  fold count got in Hcmp. destruct Hcmp as [Hbool Hiff].
  rewrite scan_entries_visible by exact Hvis. fold t1. rewrite Hnfm.
  split.
  - intros Hname Hfd. apply Hiff in Hname. rewrite Hname. cbn [Z.eqb].
    rewrite open_i2c_dev_unfold. cbv zeta. fold fd.
    destruct (Z.ltb_spec fd 0) as [Hneg | _]; [lia |].
    rewrite <- app_assoc. reflexivity.
  - intros Hno. destruct Hbool as [H1 | H0]; [exfalso; apply Hno, Hiff, H1 |].
    rewrite H0. reflexivity.
Qed.

Lemma X11_first_match_wins_witness :
  scan_entries healthy registry "bcm.0" ["i2c-0"; "i2c-1"]%string false [] =
  (Done 3,
   [EvReaddir (Some "i2c-0"%string);
    EvOpen "/sys/class/i2c-dev/i2c-0/name" O_RDONLY 3; EvRead 3 7 6; EvClose 3;
    EvOpen "/dev/i2c-0" O_RDWR 3; EvClosedir]).
Proof.
  apply (proj1 (X11_first_match_wins healthy registry "bcm.0" "i2c-0"
                  ["i2c-1"]%string false []
                  (list_byte_of_string ("bcm.0" ++ nl))
                  eq_refl ltac:(vm_compute; discriminate) eq_refl)).
  - right. reflexivity.
  - vm_compute. discriminate.
Defined.

(* ================================================================== *)
(** ** Exit status *)
(* ================================================================== *)

Lemma exits_one_bind {A B : Type} (m : M A) (k : A -> M B) :
  exits_one m -> (forall a, exits_one (k a)) -> exits_one (bind m k).
Proof.
  intros Hm Hk t s t'. unfold bind.
  destruct (m t) as [[a | s0 |] t1] eqn:E; intros H.
  - eapply Hk, H.
  - inversion H. subst. eapply Hm, E.
  - discriminate.
Qed.

Lemma exits_one_ret {A : Type} (a : A) : exits_one (ret a).
Proof. intros t s t' H. discriminate. Qed.

Lemma exits_one_emit (e : event) : exits_one (emit e).
Proof. intros t s t' H. discriminate. Qed.

Lemma exits_one_exit {A : Type} : exits_one (@exit A 1).
Proof. intros t s t' H. inversion H. reflexivity. Qed.

Lemma exits_one_when (c : bool) (m : M unit) : exits_one m -> exits_one (when c m).
Proof. intros Hm. destruct c; [exact Hm | apply exits_one_ret]. Qed.

Lemma exits_one_die_errno (msg : string) : exits_one (die_errno msg).
Proof. apply exits_one_bind; [apply exits_one_emit | intros; apply exits_one_exit]. Qed.

Lemma exits_one_usage : exits_one usage.
Proof. apply exits_one_bind; [apply exits_one_emit | intros; apply exits_one_exit]. Qed.

Lemma exits_one_both_b_and_d : exits_one both_b_and_d.
Proof. apply exits_one_bind; [apply exits_one_emit | intros; apply exits_one_usage]. Qed.

Lemma exits_one_parse (s : string) : exits_one (parse_i2c_slave_address s).
Proof.
  intros t st t'. rewrite parse_i2c_slave_address_unfold.
  destruct (strtol s 0) as [n endptr].
  destruct (_ || _); [intros H; now inversion H |].
  destruct (_ || _); intros H; now inversion H.
Qed.

Lemma exits_one_name_file_matches (W : world) (dir subdir want : string) :
  exits_one (name_file_matches W dir subdir want).
Proof.
  intros t s t'. rewrite name_file_matches_unfold. cbv zeta.
  destruct (Z.ltb _ 0); [intros H; now inversion H |].
  destruct (os_read W _ _); intros H; now inversion H.
Qed.

Lemma exits_one_open_i2c_dev (W : world) (file : string) :
  exits_one (open_i2c_dev W file).
Proof.
  intros t s t'. rewrite open_i2c_dev_unfold. cbv zeta.
  destruct (Z.ltb _ 0); intros H; now inversion H.
Qed.

Lemma exits_one_scan_entries (W : world) (dir name : string) (fails : bool)
      (entries : list string) :
  exits_one (scan_entries W dir name entries fails).
Proof.
  induction entries as [| d rest IH]; intros t s t'.
  - rewrite scan_entries_end. intros H. now inversion H.
  - destruct (hidden d) eqn:Hd.
    + rewrite scan_entries_hidden by exact Hd. apply IH.
    + rewrite scan_entries_visible by exact Hd.
      destruct (name_file_matches W dir d name _) as [[m | s0 |] t2] eqn:E.
      * destruct (Z.eqb m 0); [apply IH |].
        destruct (open_i2c_dev W d t2) as [[fd | s1 |] t3] eqn:E2;
          intros H; inversion H; subst.
        eapply exits_one_open_i2c_dev, E2.
      * intros H. inversion H. subst. eapply exits_one_name_file_matches, E.
      * discriminate.
Qed.

Lemma exits_one_open_i2c_bus (W : world) (name : string) :
  exits_one (open_i2c_bus W name).
Proof.
  intros t s t'. unfold open_i2c_bus, bind, sys_opendir.
  destruct (os_opendir W t _) as [[entries fails] |].
  - apply exits_one_scan_entries.
  - unfold die_errno, bind, emit, exit. intros H. now inversion H.
Qed.

Lemma exits_one_take_reading (W : world) (fd : Z) : exits_one (take_reading W fd).
Proof.
  intros t s t'.
  destruct (Z.lt_ge_cases (write_result W t fd) 0) as [Hneg | Hge].
  - rewrite take_reading_failed_write by exact Hneg. intros H. now inversion H.
  - rewrite take_reading_unfold by exact Hge.
    destruct (os_read W _ fd) as [[| b0 [| b1 [| b2 [| b3 rest]]]] |];
      intros H; now inversion H.
Qed.

Lemma exits_one_option_case (W : world) (c : ascii) (optarg : string) (v : vars) :
  exits_one (option_case W c optarg v).
Proof.
  destruct (option_case_cases W c optarg v)
    as [-> | [-> | [-> | [-> | [-> | [-> | [-> | Hdef]]]]]]];
    [ apply exits_one_ret | apply exits_one_ret | | | apply exits_one_ret | |
    | rewrite Hdef; apply exits_one_ret ]; cbn [option_case].
  - apply exits_one_bind; [apply exits_one_when, exits_one_both_b_and_d |].
    intros _. apply exits_one_bind; [apply exits_one_open_i2c_bus |].
    intros fd. apply exits_one_ret.
  - apply exits_one_bind; [apply exits_one_when, exits_one_both_b_and_d |].
    intros _. apply exits_one_bind; [intros t s t' H; discriminate |].
    intros fd. apply exits_one_bind; [apply exits_one_when, exits_one_die_errno |].
    intros _. apply exits_one_ret.
  - apply exits_one_bind; [apply exits_one_parse | intros; apply exits_one_ret].
  - apply exits_one_bind; [apply exits_one_usage | intros; apply exits_one_ret].
Qed.

Lemma exits_one_getopt_loop (W : world) (opts : list (ascii * string)) :
  forall v, exits_one (getopt_loop W opts v).
Proof.
  induction opts as [| [c optarg] rest IH]; intros v; cbn [getopt_loop].
  - apply exits_one_ret.
  - apply exits_one_bind; [apply exits_one_option_case | exact IH].
Qed.

Lemma exits_one_startup (W : world) (opts : list (ascii * string)) (extra : bool) :
  exits_one (startup W opts extra).
Proof.
  unfold startup.
  apply exits_one_bind; [apply exits_one_getopt_loop |]. intros v.
  apply exits_one_bind; [apply exits_one_when, exits_one_usage |]. intros _.
  apply exits_one_bind.
  { apply exits_one_when, exits_one_bind;
      [apply exits_one_emit | intros; apply exits_one_usage]. }
  intros _. cbv zeta.
  apply exits_one_bind; [intros t s t' H; discriminate |]. intros r.
  apply exits_one_bind; [apply exits_one_when, exits_one_die_errno |].
  intros _. apply exits_one_ret.
Qed.

Lemma exits_one_poll (W : world) (v : vars) (fuel : nat) : exits_one (poll W fuel v).
Proof.
  induction fuel as [| fuel IH]; cbn [poll].
  - intros t s t' H. discriminate.
  - apply exits_one_bind; [apply exits_one_take_reading |]. intros r.
    apply exits_one_bind; [apply exits_one_when, exits_one_emit |]. intros _.
    apply exits_one_bind.
    { apply exits_one_when, exits_one_bind;
        [apply exits_one_emit | intros; apply exits_one_emit]. }
    intros _.
    apply exits_one_bind; [apply exits_one_emit |]. intros _.
    apply exits_one_bind; [apply exits_one_emit |]. intros _.
    destruct (Z.gtb (v_interval v) 0); [exact IH | apply exits_one_ret].
Qed.

(** X12: [main] ends in one of two ways: it returns 0, or the process
    exits with status 1.  No other status is ever produced, not even by
    [-h]. *)
Theorem X12_exit_status (W : world) (fuel : nat) (opts : list (ascii * string))
        (extra : bool) (t : trace) :
  match fst (main W fuel opts extra t) with
  | Done r => r = 0
  | Exited s => s = 1
  | OutOfFuel => True
  end.
Proof.
  destruct (main W fuel opts extra t) as [[r | s |] t'] eqn:Hrun; cbn [fst].
  - unfold main in Hrun.
    apply bind_inv_done in Hrun. destruct Hrun as (v & t1 & _ & Hrun).
    apply bind_inv_done in Hrun. destruct Hrun as (u & t2 & _ & Hrun).
    apply bind_inv_done in Hrun. destruct Hrun as (u' & t3 & _ & Hrun).
    inversion Hrun. reflexivity.
  - revert Hrun. apply (exits_one_bind (startup W opts extra)).
    + apply exits_one_startup.
    + intros v. apply exits_one_bind; [apply exits_one_poll |]. intros _.
      apply exits_one_bind; [apply exits_one_emit | intros; apply exits_one_ret].
  - exact I.
Qed.

(* ================================================================== *)
(** ** Option processing *)
(* ================================================================== *)

Lemma option_case_no_device (W : world) (c : ascii) (optarg : string)
      (v : vars) (t : trace) :
  device_option c = false ->
  (exists v', option_case W c optarg v t = (Done v', t) /\ v_fd v' = v_fd v) \/
  (exists msg, option_case W c optarg v t = (Exited 1, (t ++ [msg])%list) /\
               is_message msg = true).
Proof.
  intros Hc.
  destruct (option_case_cases W c optarg v)
    as [-> | [-> | [-> | [-> | [-> | [-> | [-> | Hdef]]]]]]];
    try discriminate.
  - left. eexists. split; reflexivity.
  - left. eexists. split; reflexivity.
  - left. eexists. split; reflexivity.
  - cbn [option_case]. unfold bind.
    rewrite parse_i2c_slave_address_unfold.
    destruct (strtol optarg 0) as [n endptr].
    destruct (_ || _); [right; eexists; split; reflexivity |].
    destruct (_ || _); [right; eexists; split; reflexivity |].
    left. eexists. split; reflexivity.
  - right. exists (EvStdout usage_text). split; reflexivity.
  - left. exists v. rewrite Hdef. split; reflexivity.
Qed.

Lemma getopt_loop_no_device (W : world) :
  forall (opts : list (ascii * string)) (v : vars) (t : trace),
    forallb (fun o => negb (device_option (fst o))) opts = true ->
    (exists v', getopt_loop W opts v t = (Done v', t) /\ v_fd v' = v_fd v) \/
    (exists msg, getopt_loop W opts v t = (Exited 1, (t ++ [msg])%list) /\
                 is_message msg = true).
Proof.
  induction opts as [| [c optarg] rest IH]; intros v t Hopts.
  - left. exists v. split; reflexivity.
  - cbn [forallb fst] in Hopts. apply andb_true_iff in Hopts.
    destruct Hopts as [Hc Hrest]. apply negb_true_iff in Hc.
    cbn [getopt_loop].
    destruct (option_case_no_device W c optarg v t Hc)
      as [(v1 & Hrun & Hfd) | (msg & Hrun & Hmsg)].
    + rewrite (bind_done _ _ _ _ _ Hrun).
      destruct (IH v1 t Hrest) as [(v' & Hrun' & Hfd') | Hexit].
      * left. exists v'. split; [exact Hrun' | congruence].
      * right. exact Hexit.
    + right. exists msg. split; [apply bind_exited, Hrun | exact Hmsg].
Qed.

(** X13: without a [-b] or [-d] option the process exits with status 1
    and performs no system call at all: messages are all it produces. *)
Theorem X13_no_device_no_system_call (W : world) (fuel : nat)
        (opts : list (ascii * string)) (extra : bool) (t : trace) :
  forallb (fun o => negb (device_option (fst o))) opts = true ->
  exists msgs,
    main W fuel opts extra t = (Exited 1, (t ++ msgs)%list) /\
    forallb is_message msgs = true.
Proof.
  intros Hopts.
  assert (Hstart : exists msgs,
             startup W opts extra t = (Exited 1, (t ++ msgs)%list) /\
             forallb is_message msgs = true).
  { unfold startup.
    destruct (getopt_loop_no_device W opts (Vars 0 0 0 0 0x28) t Hopts)
      as [(v & Hrun & Hfd) | (msg & Hrun & Hmsg)].
    - cbn [v_fd] in Hfd. rewrite (bind_done _ _ _ _ _ Hrun).
      destruct extra.
      + exists [EvStdout usage_text]. split; [| reflexivity].
        apply bind_exited. reflexivity.
      + exists [EvStderr missing_device_message; EvStdout usage_text].
        split; [| reflexivity].
        unfold when at 1. unfold bind at 1. unfold ret at 1.
        apply bind_exited. rewrite Hfd. cbn [Z.eqb when].
        unfold bind, emit. rewrite usage_exits. rewrite <- app_assoc.
        reflexivity.
    - exists [msg]. split; [| cbn; now rewrite Hmsg].
      apply bind_exited. exact Hrun. }
  destruct Hstart as (msgs & Hrun & Hmsgs).
  exists msgs. split; [| exact Hmsgs].
  unfold main. apply bind_exited. exact Hrun.
Qed.

Lemma X13_no_device_no_system_call_witness :
  exists msgs,
    main healthy 1 [("T"%char, EmptyString); ("a"%char, "0x30"%string)] false [] =
      (Exited 1, ([] ++ msgs)%list) /\
    forallb is_message msgs = true.
Proof.
  apply (X13_no_device_no_system_call healthy 1
           [("T"%char, EmptyString); ("a"%char, "0x30"%string)] false []).
  reflexivity.
Defined.

Lemma parse_done_anywhere (s : string) (t t' : trace) (n : Z) :
  parse_i2c_slave_address s t = (Done n, t') ->
  parse_i2c_slave_address s [] = (Done n, []) /\ 0x03 <= n <= 0x77 /\ t' = t.
Proof.
  rewrite !parse_i2c_slave_address_unfold.
  destruct (strtol s 0) as [v endptr].
  destruct (_ || _); [discriminate |].
  destruct (Z.ltb_spec v 3); [discriminate |].
  destruct (Z.gtb_spec v 119); [discriminate |].
  cbn [orb]. intros Hdone. inversion Hdone. subst. repeat split; lia.
Qed.

Lemma option_case_other (W : world) (c : ascii) (optarg : string) (v : vars) :
  Ascii.eqb c "H" = false -> Ascii.eqb c "T" = false ->
  Ascii.eqb c "b" = false -> Ascii.eqb c "d" = false ->
  Ascii.eqb c "i" = false -> Ascii.eqb c "a" = false ->
  Ascii.eqb c "h" = false ->
  option_case W c optarg v = ret v.
Proof.
  destruct c as [[] [] [] [] [] [] [] []]; cbn;
    intros; try discriminate; reflexivity.
Qed.

Lemma option_case_done (W : world) (c : ascii) (optarg : string)
      (v v' : vars) (t t' : trace) :
  option_case W c optarg v t = (Done v', t') ->
  v_phum v' = (if Ascii.eqb c "H" then 1 else v_phum v) /\
  v_ptemp v' = (if Ascii.eqb c "T" then 1 else v_ptemp v) /\
  v_interval v' = (if Ascii.eqb c "i" then atoi optarg else v_interval v) /\
  (if Ascii.eqb c "a"
   then parse_i2c_slave_address optarg [] = (Done (v_slave v'), []) /\
        0x03 <= v_slave v' <= 0x77
   else v_slave v' = v_slave v) /\
  (if device_option c then 0 <= v_fd v' else v_fd v' = v_fd v).
Proof.
  intros Hrun. unfold device_option.
  destruct (Ascii.eqb_spec c "H") as [-> | nH].
  { inversion Hrun. subst. cbn -[parse_i2c_slave_address atoi]. auto 10. }
  destruct (Ascii.eqb_spec c "T") as [-> | nT].
  { inversion Hrun. subst. cbn -[parse_i2c_slave_address atoi]. auto 10. }
  destruct (Ascii.eqb_spec c "b") as [-> | nb].
  { cbn [option_case] in Hrun.
    apply bind_inv_done in Hrun. destruct Hrun as (u & t1 & _ & Hrun).
    apply bind_inv_done in Hrun. destruct Hrun as (fd & t2 & Hbus & Hrun).
    inversion Hrun. subst. cbn -[parse_i2c_slave_address atoi].
    unfold open_i2c_bus, bind, sys_opendir in Hbus.
    destruct (os_opendir W t1 _) as [[entries fails] |].
    - apply scan_entries_done_shape in Hbus. intuition.
    - unfold die_errno, bind, emit, exit in Hbus. discriminate. }
  destruct (Ascii.eqb_spec c "d") as [-> | nd].
  { cbn [option_case] in Hrun.
    apply bind_inv_done in Hrun. destruct Hrun as (u & t1 & _ & Hrun).
    apply bind_inv_done in Hrun. destruct Hrun as (fd & t2 & Hopen & Hrun).
    apply bind_inv_done in Hrun. destruct Hrun as (u' & t3 & Hw & Hrun).
    apply when_inv_done in Hw. destruct Hw as [[Hge _] | [_ Hw]].
    2:{ exfalso. eapply die_errno_never_returns, Hw. }
    inversion Hrun. subst. cbn -[parse_i2c_slave_address atoi]. apply Z.ltb_ge in Hge. auto 10. }
  destruct (Ascii.eqb_spec c "i") as [-> | ni].
  { inversion Hrun. subst. cbn -[parse_i2c_slave_address atoi]. auto 10. }
  destruct (Ascii.eqb_spec c "a") as [-> | na].
  { cbn [option_case] in Hrun.
    apply bind_inv_done in Hrun. destruct Hrun as (n & t1 & Hp & Hrun).
    apply parse_done_anywhere in Hp. destruct Hp as (Hp & Hn & _).
    inversion Hrun. subst. cbn -[parse_i2c_slave_address atoi]. auto 10. }
  destruct (Ascii.eqb_spec c "h") as [-> | nh].
  { cbn [option_case] in Hrun. unfold bind in Hrun.
    rewrite usage_exits in Hrun. discriminate. }
  rewrite option_case_other in Hrun;
    try (apply Ascii.eqb_neq; assumption).
  inversion Hrun. subst. cbn -[parse_i2c_slave_address atoi]. auto 10.
Qed.

Lemma getopt_loop_done (W : world) :
  forall (opts : list (ascii * string)) (v v' : vars) (t t' : trace),
    getopt_loop W opts v t = (Done v', t') ->
    v_phum v' = (if given "H" opts then 1 else v_phum v) /\
    v_ptemp v' = (if given "T" opts then 1 else v_ptemp v) /\
    v_interval v' = match last_arg "i" opts with
                    | Some s => atoi s
                    | None => v_interval v
                    end /\
    match last_arg "a" opts with
    | Some s => parse_i2c_slave_address s [] = (Done (v_slave v'), [])
    | None => v_slave v' = v_slave v
    end /\
    (0x03 <= v_slave v <= 0x77 -> 0x03 <= v_slave v' <= 0x77) /\
    (0 <= v_fd v -> 0 <= v_fd v').
Proof.
  induction opts as [| [c a] rest IH]; intros v v' t t' Hrun.
  - inversion Hrun. subst. cbn. auto 10.
  - cbn [getopt_loop] in Hrun.
    apply bind_inv_done in Hrun. destruct Hrun as (v1 & t1 & Hstep & Hrun).
    apply option_case_done in Hstep.
    destruct Hstep as (Hh & Ht & Hi & Ha & Hfd).
    destruct (IH _ _ _ _ Hrun) as (Hh' & Ht' & Hi' & Ha' & Hs' & Hfd').
    unfold given in *. cbn [existsb last_arg fst].
    split; [| split; [| split; [| split; [| split]]]].
    + rewrite Hh', Hh. clear. destruct (Ascii.eqb c "H"), (existsb _ rest); reflexivity.
    + rewrite Ht', Ht. clear. destruct (Ascii.eqb c "T"), (existsb _ rest); reflexivity.
    + rewrite Hi', Hi. clear. destruct (last_arg "i" rest), (Ascii.eqb c "i"); reflexivity.
    + destruct (last_arg "a" rest); [exact Ha' |].
      destruct (Ascii.eqb c "a"); [rewrite Ha'; tauto | congruence].
    + intros Hv. apply Hs'. destruct (Ascii.eqb c "a"); [tauto | congruence].
    + intros Hv. apply Hfd'. destruct (device_option c); [exact Hfd | congruence].
Qed.

(** What a completed [startup] went through. *)
Lemma startup_done (W : world) (opts : list (ascii * string)) (extra : bool)
      (t t' : trace) (v : vars) :
  startup W opts extra t = (Done v, t') ->
  exists v0 t0 r,
    getopt_loop W opts (Vars 0 0 0 0 0x28) t = (Done v0, t0) /\
    extra = false /\ v_fd v0 <> 0 /\
    v = (if Z.eqb (v_ptemp v0) 0 && Z.eqb (v_phum v0) 0
         then Vars (v_fd v0) (v_interval v0) 1 1 (v_slave v0) else v0) /\
    0 <= r /\
    t' = (t0 ++ [EvIoctl (v_fd v) I2C_SLAVE (v_slave v) r])%list.
Proof.
  unfold startup. intros Hrun.
  apply bind_inv_done in Hrun. destruct Hrun as (v0 & t0 & Hopts & Hrun).
  apply bind_inv_done in Hrun. destruct Hrun as (u & t1 & Hw & Hrun).
  apply when_inv_done in Hw. destruct Hw as [[Hextra ->] | [_ Hw]].
  2:{ rewrite usage_exits in Hw. discriminate. }
  apply bind_inv_done in Hrun. destruct Hrun as (u' & t2 & Hw & Hrun).
  apply when_inv_done in Hw. destruct Hw as [[Hfd ->] | [_ Hw]].
  2:{ unfold bind, emit in Hw. rewrite usage_exits in Hw. discriminate. }
  cbv zeta in Hrun.
  apply bind_inv_done in Hrun. destruct Hrun as (r & t3 & Hio & Hrun).
  unfold sys_ioctl in Hio. inversion Hio. subst r t3. clear Hio.
  apply bind_inv_done in Hrun. destruct Hrun as (u'' & t4 & Hw & Hrun).
  apply when_inv_done in Hw. destruct Hw as [[Hr ->] | [_ Hw]].
  2:{ exfalso. eapply die_errno_never_returns, Hw. }
  inversion Hrun. subst v. clear Hrun.
  eexists v0, t0, _. split; [exact Hopts |]. split; [exact Hextra |].
  split; [apply Z.eqb_neq, Hfd |]. split; [reflexivity |].
  split; [apply Z.ltb_ge, Hr | reflexivity].
Qed.

(** X14: when the first transaction starts, no argument was left over
    after the options, the descriptor is positive, the slave address lies
    in 0x03..0x77, and the last thing done was a successful
    [ioctl(I2C_SLAVE)] on that descriptor with that address. *)
Theorem X14_polling_starts_bound (W : world) (opts : list (ascii * string))
        (extra : bool) (t t' : trace) (v : vars) :
  startup W opts extra t = (Done v, t') ->
  extra = false /\
  0 < v_fd v /\
  0x03 <= v_slave v <= 0x77 /\
  exists t0 r,
    0 <= r /\
    t' = (t0 ++ [EvIoctl (v_fd v) I2C_SLAVE (v_slave v) r])%list.
Proof.
  intros Hrun. apply startup_done in Hrun.
  destruct Hrun as (v0 & t0 & r & Hopts & Hextra & Hfd & Hv & Hr & Ht').
  apply getopt_loop_done in Hopts.
  destruct Hopts as (_ & _ & _ & _ & Hs & Hfd0).
  cbn [v_slave v_fd] in Hs, Hfd0.
  assert (Hsame : v_fd v = v_fd v0 /\ v_slave v = v_slave v0).
  { subst v. destruct (_ && _); split; reflexivity. }
  destruct Hsame as [Ef Es].
  split; [exact Hextra |]. split; [lia |]. split; [lia |].
  exists t0, r. auto.
Qed.

Lemma X14_polling_starts_bound_witness :
  false = false /\ 0 < 3 /\ 0x03 <= 0x30 <= 0x77 /\
  exists t0 r,
    0 <= r /\
    [EvOpen "/dev/i2c-1" O_RDWR 3; EvIoctl 3 I2C_SLAVE 0x30 0] =
    (t0 ++ [EvIoctl 3 I2C_SLAVE 0x30 r])%list.
Proof.
  apply (X14_polling_starts_bound healthy
           [("d"%char, "/dev/i2c-1"%string); ("a"%char, "0x30"%string)]
           false [] [EvOpen "/dev/i2c-1" O_RDWR 3; EvIoctl 3 I2C_SLAVE 0x30 0]
           (Vars 3 0 1 1 0x30)).
  vm_compute. reflexivity.
Defined.



(** X16: the interval is [atoi] of the argument of the last [-i], or 0
    without [-i]; the slave address is the parsed argument of the last
    [-a], or 0x28 without [-a]. *)
Theorem X16_last_value_wins (W : world) (opts : list (ascii * string))
        (extra : bool) (t t' : trace) (v : vars) :
  startup W opts extra t = (Done v, t') ->
  v_interval v = match last_arg "i" opts with
                 | Some s => atoi s
                 | None => 0
                 end /\
  match last_arg "a" opts with
  | Some s => parse_i2c_slave_address s [] = (Done (v_slave v), [])
  | None => v_slave v = 0x28
  end.
Proof.
  intros Hrun. apply startup_done in Hrun.
  destruct Hrun as (v0 & t0 & r & Hopts & _ & _ & Hv & _).
  apply getopt_loop_done in Hopts.
  destruct Hopts as (_ & _ & Hi & Ha & _). cbn [v_interval v_slave] in Hi, Ha.
  assert (Hsame : v_interval v = v_interval v0 /\ v_slave v = v_slave v0).
  { subst v. destruct (_ && _); split; reflexivity. }
  destruct Hsame as [Ei Es]. rewrite Ei, Es. auto.
Qed.

Lemma X16_last_value_wins_witness :
  7 = match last_arg "i" [("i"%char, "2"%string); ("d"%char, "/dev/i2c-1"%string);
                          ("a"%char, "0x30"%string); ("i"%char, "7"%string);
                          ("a"%char, "0x31"%string)] with
      | Some s => atoi s
      | None => 0
      end /\
  match last_arg "a" [("i"%char, "2"%string); ("d"%char, "/dev/i2c-1"%string);
                      ("a"%char, "0x30"%string); ("i"%char, "7"%string);
                      ("a"%char, "0x31"%string)] with
  | Some s => parse_i2c_slave_address s [] = (Done 0x31, [])
  | None => 0x31 = 0x28
  end.
Proof.
  apply (X16_last_value_wins healthy
           [("i"%char, "2"%string); ("d"%char, "/dev/i2c-1"%string);
            ("a"%char, "0x30"%string); ("i"%char, "7"%string);
            ("a"%char, "0x31"%string)]
           false [] [EvOpen "/dev/i2c-1" O_RDWR 3; EvIoctl 3 I2C_SLAVE 0x31 0]
           (Vars 3 7 1 1 0x31)).
  vm_compute. reflexivity.
Defined.

(* ================================================================== *)
(** ** The polling loop *)
(* ================================================================== *)


(** One iteration of the loop. *)
Lemma poll_step (W : world) (fuel : nat) (v : vars) (t : trace) :
  poll W (S fuel) v t =
  match take_reading W (v_fd v) t with
  | (Done r, t1) =>
      let t2 := (t1 ++ report v r ++ [EvSleep (v_interval v mod 2 ^ 32)])%list in
      if Z.gtb (v_interval v) 0 then poll W fuel v t2 else (Done tt, t2)
  | (Exited s, t1) => (Exited s, t1)
  | (OutOfFuel, t1) => (OutOfFuel, t1)
  end.
Proof.
  cbn [poll]. unfold bind at 1.
  destruct (take_reading W (v_fd v) t) as [[r | s |] t1]; try reflexivity.
  unfold report, sleep, bind, when, emit, ret.
  destruct (Z.eqb (v_phum v) 0), (Z.eqb (v_ptemp v) 0); cbn [negb app];
    rewrite <- ?app_assoc; cbn [app];
    destruct (Z.gtb (v_interval v) 0); reflexivity.
Qed.





Lemma poll_not_done (W : world) (v : vars) :
  0 < v_interval v ->
  forall (fuel : nat) (t t' : trace) (u : unit),
    poll W fuel v t <> (Done u, t').
Proof.
  intros Hi.
  assert (Hgt : Z.gtb (v_interval v) 0 = true).
  { rewrite Z.gtb_ltb. apply Z.ltb_lt. exact Hi. }
  induction fuel as [| fuel IH]; intros t t' u; [discriminate |].
  rewrite poll_step, Hgt.
  destruct (take_reading W (v_fd v) t) as [[r | s |] t1]; try discriminate.
  apply IH.
Qed.



(** X19: a run of [main] that returns has status 0, took exactly one
    reading with an interval of zero or less, printed its line, slept
    once and closed the device descriptor as its last action. *)
Theorem X19_normal_termination (W : world) (fuel : nat)
        (opts : list (ascii * string)) (extra : bool) (t t' : trace) (status : Z) :
  main W fuel opts extra t = (Done status, t') ->
  status = 0 /\
  exists v t0 r t1,
    startup W opts extra t = (Done v, t0) /\
    take_reading W (v_fd v) t0 = (Done r, t1) /\
    v_interval v <= 0 /\
    t' = (t1 ++ report v r ++ [EvSleep (v_interval v mod 2 ^ 32);
                               EvClose (v_fd v)])%list.
Proof.
  unfold main. intros Hrun.
  apply bind_inv_done in Hrun. destruct Hrun as (v & t0 & Hstart & Hrun).
  apply bind_inv_done in Hrun. destruct Hrun as (u & t2 & Hpoll & Hrun).
  unfold bind, sys_close, emit, ret in Hrun.
  injection Hrun as <- <-.
  split; [reflexivity |].
  destruct fuel as [| fuel]; [discriminate |].
  rewrite poll_step in Hpoll.
  destruct (take_reading W (v_fd v) t0) as [[r | s |] t1] eqn:Htake;
    try discriminate.
  cbv zeta in Hpoll.
  destruct (Z.gtb (v_interval v) 0) eqn:Hgt.
  - exfalso. apply Z.gtb_lt in Hgt.
    eapply (poll_not_done W v Hgt), Hpoll.
  - injection Hpoll as _ Ht2. subst t2.
    exists v, t0, r, t1. split; [exact Hstart |]. split; [exact Htake |].
    split.
    + rewrite Z.gtb_ltb in Hgt. apply Z.ltb_ge in Hgt. exact Hgt.
    + rewrite <- !app_assoc. reflexivity.
Qed.

Lemma X19_normal_termination_witness :
  0 = 0 /\
  exists v t0 r t1,
    startup healthy [("d"%char, "/dev/i2c-1"%string)] false [] = (Done v, t0) /\
    take_reading healthy (v_fd v) t0 = (Done r, t1) /\
    v_interval v <= 0 /\
    snd (main healthy 1 [("d"%char, "/dev/i2c-1"%string)] false []) =
    (t1 ++ report v r ++ [EvSleep (v_interval v mod 2 ^ 32);
                          EvClose (v_fd v)])%list.
Proof.
  apply (X19_normal_termination healthy 1 [("d"%char, "/dev/i2c-1"%string)]
           false [] _ 0).
  vm_compute. reflexivity.
Defined.



(* ================================================================== *)
(** ** Writes and the slave address *)
(* ================================================================== *)

Lemma emits_only_ret {A : Type} (P : event -> bool) (a : A) : emits_only P (ret a).
Proof. intros t. exists []. split; [cbn; now rewrite app_nil_r | reflexivity]. Qed.

Lemma emits_only_exit {A : Type} (P : event -> bool) (s : Z) :
  emits_only P (@exit A s).
Proof. intros t. exists []. split; [cbn; now rewrite app_nil_r | reflexivity]. Qed.

Lemma emits_only_emit (P : event -> bool) (e : event) :
  P e = true -> emits_only P (emit e).
Proof. intros He t. exists [e]. split; [reflexivity | cbn; now rewrite He]. Qed.

Lemma emits_only_bind {A B : Type} (P : event -> bool) (m : M A) (k : A -> M B) :
  emits_only P m -> (forall a, emits_only P (k a)) -> emits_only P (bind m k).
Proof.
  intros Hm Hk t. unfold bind.
  destruct (Hm t) as (e1 & Hs1 & Hp1).
  destruct (m t) as [[a | s |] t1]; cbn [snd] in Hs1; subst t1.
  - destruct (Hk a (t ++ e1)%list) as (e2 & Hs2 & Hp2).
    exists (e1 ++ e2)%list. split.
    + rewrite Hs2, app_assoc. reflexivity.
    + rewrite forallb_app, Hp1, Hp2. reflexivity.
  - exists e1. auto.
  - exists e1. auto.
Qed.

Lemma emits_only_when (P : event -> bool) (c : bool) (m : M unit) :
  emits_only P m -> emits_only P (when c m).
Proof. intros Hm. destruct c; [exact Hm | apply emits_only_ret]. Qed.

Lemma emits_only_sys_open (W : world) (P : event -> bool) (path : string)
      (fl : open_flags) :
  (forall r, P (EvOpen path fl r) = true) -> emits_only P (sys_open W path fl).
Proof.
  intros HP t. eexists [_]. split; [reflexivity | cbn; now rewrite HP].
Qed.

Lemma emits_only_sys_read (W : world) (P : event -> bool) (fd count : Z) :
  (forall r, P (EvRead fd count r) = true) -> emits_only P (sys_read W fd count).
Proof.
  intros HP t. unfold sys_read.
  destruct (os_read W t fd); (eexists [_]; split; [reflexivity | cbn; now rewrite HP]).
Qed.

Lemma emits_only_sys_write (W : world) (P : event -> bool) (fd : Z) (buf : list byte) :
  (forall r, P (EvWrite fd buf r) = true) -> emits_only P (sys_write W fd buf).
Proof.
  intros HP t. eexists [_]. split; [reflexivity | cbn; now rewrite HP].
Qed.

Lemma emits_only_sys_ioctl (W : world) (P : event -> bool) (fd request arg : Z) :
  (forall r, P (EvIoctl fd request arg r) = true) ->
  emits_only P (sys_ioctl W fd request arg).
Proof.
  intros HP t. eexists [_]. split; [reflexivity | cbn; now rewrite HP].
Qed.

Lemma emits_only_sys_opendir (W : world) (P : event -> bool) (path : string) :
  (forall ok, P (EvOpendir path ok) = true) -> emits_only P (sys_opendir W path).
Proof.
  intros HP t. unfold sys_opendir.
  destruct (os_opendir W t path);
    (eexists [_]; split; [reflexivity | cbn; now rewrite HP]).
Qed.

(** Decomposes a computation into its calls. *)
Ltac emits :=
  repeat first
    [ apply emits_only_ret
    | apply emits_only_exit
    | apply emits_only_emit; reflexivity
    | apply emits_only_when
    | apply emits_only_sys_open; intros; reflexivity
    | apply emits_only_sys_read; intros; reflexivity
    | apply emits_only_sys_ioctl; intros; reflexivity
    | apply emits_only_sys_opendir; intros; reflexivity
    | apply emits_only_bind;
      [| let x := fresh "x" in
         intros x;
         match type of x with
         | (_ * _)%type => destruct x
         | _ => idtac
         end ] ].

Lemma no_write_name_file_matches (W : world) (dir subdir want : string) :
  emits_only no_write (name_file_matches W dir subdir want).
Proof.
  unfold name_file_matches, die_alloc, die_errno, sys_close. cbv zeta.
  emits.
Qed.

Lemma no_write_open_i2c_dev (W : world) (file : string) :
  emits_only no_write (open_i2c_dev W file).
Proof. unfold open_i2c_dev, die_alloc, die_errno. cbv zeta. emits. Qed.

Lemma no_write_scan_entries (W : world) (dir name : string) (fails : bool)
      (entries : list string) :
  emits_only no_write (scan_entries W dir name entries fails).
Proof.
  induction entries as [| d rest IH]; cbn [scan_entries]; unfold die_errno.
  - emits.
  - apply emits_only_bind; [emits |]. intros _.
    destruct (hidden d); [exact IH |].
    apply emits_only_bind; [apply no_write_name_file_matches |]. intros m.
    destruct (negb (Z.eqb m 0)); [| exact IH].
    apply emits_only_bind; [apply no_write_open_i2c_dev |]. intros fd. emits.
Qed.

Lemma no_write_open_i2c_bus (W : world) (name : string) :
  emits_only no_write (open_i2c_bus W name).
Proof.
  unfold open_i2c_bus. cbv zeta.
  apply emits_only_bind; [emits |]. intros [[entries fails] |].
  - apply no_write_scan_entries.
  - unfold die_errno. emits.
Qed.

Lemma no_write_parse (s : string) : emits_only no_write (parse_i2c_slave_address s).
Proof.
  unfold parse_i2c_slave_address. destruct (strtol s 0) as [n endptr]. emits.
Qed.

Lemma no_write_option_case (W : world) (c : ascii) (optarg : string) (v : vars) :
  emits_only no_write (option_case W c optarg v).
Proof.
  destruct (option_case_cases W c optarg v)
    as [-> | [-> | [-> | [-> | [-> | [-> | [-> | Hdef]]]]]]];
    [ | | | | | | | rewrite Hdef ]; cbn [option_case];
    unfold both_b_and_d, usage, die_errno.
  - emits.
  - emits.
  - apply emits_only_bind; [emits |]. intros _.
    apply emits_only_bind; [apply no_write_open_i2c_bus |]. intros fd. emits.
  - emits.
  - emits.
  - apply emits_only_bind; [apply no_write_parse |]. intros slave. emits.
  - emits.
  - emits.
Qed.

Lemma no_write_getopt_loop (W : world) (opts : list (ascii * string)) :
  forall v, emits_only no_write (getopt_loop W opts v).
Proof.
  induction opts as [| [c optarg] rest IH]; intros v; cbn [getopt_loop].
  - emits.
  - apply emits_only_bind; [apply no_write_option_case | exact IH].
Qed.

Lemma no_write_startup (W : world) (opts : list (ascii * string)) (extra : bool) :
  emits_only no_write (startup W opts extra).
Proof.
  unfold startup, usage, die_errno. cbv zeta.
  apply emits_only_bind; [apply no_write_getopt_loop |]. intros v. emits.
Qed.

Lemma transfer_on_take_reading (W : world) (fd : Z) :
  emits_only (transfer_on fd) (take_reading W fd).
Proof.
  unfold take_reading, die_errno, usleep. cbv zeta.
  apply emits_only_bind.
  { apply emits_only_sys_write. intros r. cbn. apply Z.eqb_refl. }
  intros sz. emits.
Qed.

Lemma transfer_on_poll (W : world) (v : vars) (fuel : nat) :
  emits_only (transfer_on (v_fd v)) (poll W fuel v).
Proof.
  induction fuel as [| fuel IH]; cbn [poll].
  - intros t. exists []. split; [cbn; now rewrite app_nil_r | reflexivity].
  - unfold sleep.
    apply emits_only_bind; [apply transfer_on_take_reading |]. intros r.
    apply emits_only_bind; [emits |]. intros _.
    apply emits_only_bind; [emits |]. intros _.
    apply emits_only_bind; [emits |]. intros _.
    apply emits_only_bind; [emits |]. intros _.
    destruct (Z.gtb (v_interval v) 0); [exact IH | emits].
Qed.

Lemma writes_guarded_no_write (l : trace) :
  forallb no_write l = true -> forall bound, writes_guarded bound l = true.
Proof.
  induction l as [| e l IH]; intros Hl bound; [reflexivity |].
  cbn [forallb] in Hl. apply andb_true_iff in Hl. destruct Hl as [He Hl].
  cbn [writes_guarded]. rewrite (IH Hl).
  destruct e; try reflexivity. discriminate.
Qed.

Lemma writes_guarded_bound (fd : Z) (l : trace) :
  forallb (transfer_on fd) l = true -> writes_guarded (Some fd) l = true.
Proof.
  induction l as [| e l IH]; intros Hl; [reflexivity |].
  cbn [forallb] in Hl. apply andb_true_iff in Hl. destruct Hl as [He Hl].
  cbn [writes_guarded].
  destruct e; cbn [bind_slave]; try (rewrite (IH Hl); reflexivity).
  - cbn [transfer_on] in He. rewrite He, (IH Hl). reflexivity.
  - discriminate.
Qed.

Lemma writes_guarded_after_ioctl (fd slave r : Z) (l1 l2 : trace) :
  forallb no_write l1 = true -> 0 <= r ->
  forall bound,
    writes_guarded bound (l1 ++ EvIoctl fd I2C_SLAVE slave r :: l2) =
    writes_guarded (Some fd) l2.
Proof.
  intros Hl Hr. induction l1 as [| e l1 IH]; intros bound.
  - cbn [app writes_guarded bind_slave andb].
    rewrite Z.eqb_refl. apply Z.leb_le in Hr. rewrite Hr. reflexivity.
  - cbn [forallb] in Hl. apply andb_true_iff in Hl. destruct Hl as [He Hl].
    cbn [app writes_guarded]. rewrite (IH Hl).
    destruct e; try reflexivity. discriminate.
Qed.

(** X21: in every run of [main], each [write] goes to the descriptor of
    a successful [ioctl(I2C_SLAVE)] issued before it: nothing is written
    to a bus before the slave address is set. *)
Theorem X21_write_only_after_slave_bound (W : world) (fuel : nat)
        (opts : list (ascii * string)) (extra : bool) (t : trace) :
  exists evs,
    snd (main W fuel opts extra t) = (t ++ evs)%list /\
    writes_guarded None evs = true.
Proof.
  unfold main, bind at 1.
  destruct (startup W opts extra t) as [[v | s |] t0] eqn:Hstart.
  - destruct (startup_done W opts extra t t0 v Hstart)
      as (v0 & t1 & r & Hopts & _ & _ & _ & Hr & Ht0).
    destruct (no_write_getopt_loop W opts (Vars 0 0 0 0 0x28) t)
      as (e0 & Hs0 & Hq0).
    rewrite Hopts in Hs0. cbn [snd] in Hs0. subst t1.
    assert (Hrest : emits_only (transfer_on (v_fd v))
                               (poll W fuel v ;; sys_close (v_fd v) ;; ret 0)).
    { unfold sys_close.
      apply emits_only_bind; [apply transfer_on_poll |]. intros _. emits. }
    destruct (Hrest t0) as (e1 & Hs1 & Hq1).
    exists (e0 ++ EvIoctl (v_fd v) I2C_SLAVE (v_slave v) r :: e1)%list.
    split.
    + rewrite Hs1, Ht0, <- !app_assoc. reflexivity.
    + rewrite writes_guarded_after_ioctl by assumption.
      apply writes_guarded_bound, Hq1.
  - destruct (no_write_startup W opts extra t) as (e0 & Hs0 & Hq0).
    rewrite Hstart in Hs0. cbn [snd] in *. exists e0.
    split; [exact Hs0 | apply writes_guarded_no_write, Hq0].
  - destruct (no_write_startup W opts extra t) as (e0 & Hs0 & Hq0).
    rewrite Hstart in Hs0. cbn [snd] in *. exists e0.
    split; [exact Hs0 | apply writes_guarded_no_write, Hq0].
Qed.
